(** * XivParty texture resizer (addons/xivparty/resize_textures.py)

    A shallow embedding of the resizer script and the properties of its
    specification: the power-of-two arithmetic, the per-file transformer
    [resize_to_pow2] and the batch driver [main].

    Python integers are unbounded, so they are [Z].  The file system is a
    finite map from paths to nodes, the script's I/O is a state-and-exception
    monad over it, exceptions are values. *)

From Stdlib Require Import ZArith Lia List.
From stdpp Require Import base option list gmap strings pretty.

Local Open Scope Z_scope.

(** ** The dimension classifier: [next_pow2] and [is_pow2] *)

Module Classifier.

(** The loop [while p < n: p *= 2] of [next_pow2], run for at most [fuel]
    evaluations of its condition; [None] when the fuel runs out first. *)
Fixpoint doubling (fuel : nat) (p n : Z) : option Z :=
  match fuel with
  | O => None
  | S fuel' => if p <? n then doubling fuel' (p * 2) n else Some p
  end.

(** Number of condition evaluations that is always enough for [n]. *)
Definition next_pow2_fuel (n : Z) : nat := S (Z.to_nat (Z.log2_up n)).

(** [def next_pow2(n): p = 1; while p < n: p *= 2; return p].  The fuel is
    always enough ([next_pow2_fuel_enough] below), so the [None] branch is
    never taken. *)
Definition next_pow2 (n : Z) : Z :=
  match doubling (next_pow2_fuel n) 1 n with
  | Some p => p
  | None => 1
  end.

(** [def is_pow2(n): return n > 0 and (n & (n - 1)) == 0] *)
Definition is_pow2 (n : Z) : bool :=
  (0 <? n) && (Z.land n (n - 1) =? 0).

(** Big-step semantics of the same loop, independent of any fuel:
    [loop_run n p k r] says that the loop entered with [p] executes its body
    [k] times and leaves with [p = r]. *)
Inductive loop_run (n : Z) : Z -> nat -> Z -> Prop :=
| loop_exit p : ¬ (p < n) -> loop_run n p 0 p
| loop_iter p k r : p < n -> loop_run n (p * 2) k r -> loop_run n p (S k) r.

(** A power of two, as a number. *)
Definition power_of_two (m : Z) : Prop := exists k, 0 <= k /\ m = 2 ^ k.

(** Exactly one bit of the binary representation is set. *)
Definition one_bit_set (n : Z) : Prop :=
  exists k, 0 <= k /\ forall i, Z.testbit n i = (i =? k).

End Classifier.

(** ** The environment: images, files, the file system, exceptions *)

Module Env.

(** A path is the list of its components; [[]] is the root directory, which
    always exists.  The file system compares paths component by component
    (no symbolic links, no case folding). *)
Abbreviation path := (list string).

(** [os.path.dirname] and [os.path.basename] *)
Definition dirname (p : path) : path := removelast p.
Definition basename (p : path) : string := List.last p "".

(** [Path.__str__] and the formatting of a path inside an f-string *)
Definition path_str (p : path) : string := String.concat "/" p.

(** Pixel data is kept symbolic: the samples stored in a file, and the
    library operations applied to them since.  The resampling arithmetic is
    floating point inside the imaging library and is not interpreted. *)
Inductive raster :=
| Stored (samples : list Z)
| Converted (mode : string) (r : raster)
| Resampled (filter : string) (size : Z * Z) (r : raster).

(** A PIL image: [img.mode], [img.size] and its (lazily loaded) pixel data;
    [img_truncated] tells that loading the pixel data will fail. *)
Record image := Image {
  img_mode : string;
  img_size : Z * Z;
  img_data : raster;
  img_truncated : bool
}.

(** What a file holds, at the granularity the imaging library sees it:
    bytes that no decoder identifies, or an image in some encoding. *)
Inductive content :=
| Raw (bytes : list Z)
| Encoded (format : string) (im : image).

Record file := File_ {
  f_content : content;
  f_mtime : Z;
  f_readonly : bool
}.

Inductive node :=
| Dir
| File (f : file).

(** The observable effects, in the order they happen. *)
Inductive event :=
| EvOpen (p : path)            (* [Image.open(p)] was attempted *)
| EvMkdir (p : path)           (* directory [p] was created *)
| EvCopy (src dst : path)      (* [src] was copied onto [dst] *)
| EvSave (p : path).           (* [p] was overwritten by [Image.save] *)

Record world := World {
  w_fs : gmap path node;
  w_clock : Z;
  w_log : list event;
  w_out : list string
}.

(** Python exceptions raised by the modelled library calls; all of them are
    subclasses of [Exception]. *)
Inductive exn :=
| FileNotFoundError (p : path)
| FileExistsError (p : path)
| IsADirectoryError (p : path)
| NotADirectoryError (p : path)
| PermissionError (p : path)
| SameFileError (src dst : path)
| UnidentifiedImageError (p : path)
| TruncatedFileError
| ValueError (msg : string).

(** [str(e)] *)
Definition str (e : exn) : string :=
  match e with
  | FileNotFoundError p => "[Errno 2] No such file or directory: '" +:+ path_str p +:+ "'"
  | FileExistsError p => "[Errno 17] File exists: '" +:+ path_str p +:+ "'"
  | IsADirectoryError p => "[Errno 21] Is a directory: '" +:+ path_str p +:+ "'"
  | NotADirectoryError p => "[Errno 20] Not a directory: '" +:+ path_str p +:+ "'"
  | PermissionError p => "[Errno 13] Permission denied: '" +:+ path_str p +:+ "'"
  | SameFileError src dst =>
      "'" +:+ path_str src +:+ "' and '" +:+ path_str dst +:+ "' are the same file"
  | UnidentifiedImageError p => "cannot identify image file '" +:+ path_str p +:+ "'"
  | TruncatedFileError => "image file is truncated"
  | ValueError msg => msg
  end.

Inductive result (A : Type) :=
| Ok (a : A)
| Raise (e : exn).
Arguments Ok {A} a.
Arguments Raise {A} e.

(** Computations: they read and change the world, and return or raise.  The
    world reached when an exception is raised is kept: effects that happened
    before the exception stay. *)
Definition M (A : Type) : Type := world -> world * result A.

#[export] Instance M_ret : MRet M := fun A a w => (w, Ok a).
#[export] Instance M_bind : MBind M := fun A B k c w =>
  match c w with
  | (w', Ok a) => k a w'
  | (w', Raise e) => (w', Raise e)
  end.

Definition raise {A : Type} (e : exn) : M A := fun w => (w, Raise e).

(** [try: c  except Exception as e: h(e)] *)
Definition try_except {A : Type} (c : M A) (h : exn -> M A) : M A := fun w =>
  match c w with
  | (w', Ok a) => (w', Ok a)
  | (w', Raise e) => h e w'
  end.

Definition get_fs : M (gmap path node) := fun w => (w, Ok (w_fs w)).
Definition get_clock : M Z := fun w => (w, Ok (w_clock w)).

(** A write to the file system; the clock advances. *)
Definition put_fs (fs : gmap path node) : M unit := fun w =>
  (World fs (w_clock w + 1) (w_log w) (w_out w), Ok tt).

Definition log (e : event) : M unit := fun w =>
  (World (w_fs w) (w_clock w) (w_log w ++ [e]) (w_out w), Ok tt).

(** [print(line)] *)
Definition print (line : string) : M unit := fun w =>
  (World (w_fs w) (w_clock w) (w_log w) (w_out w ++ [line]), Ok tt).

Definition lookup_node (fs : gmap path node) (p : path) : option node :=
  match p with
  | [] => Some Dir
  | _ => fs !! p
  end.

(** [os.path.exists], [os.path.isdir] *)
Definition path_exists (fs : gmap path node) (p : path) : bool :=
  match lookup_node fs p with Some _ => true | None => false end.
Definition isdir (fs : gmap path node) (p : path) : bool :=
  match lookup_node fs p with Some Dir => true | _ => false end.

(** [os.mkdir(p)] *)
Definition os_mkdir (p : path) : M unit :=
  fs ← get_fs;
  match lookup_node fs p with
  | Some _ => raise (FileExistsError p)
  | None =>
      match lookup_node fs (dirname p) with
      | Some Dir => put_fs (<[p := Dir]> fs);; log (EvMkdir p)
      | Some (File _) => raise (NotADirectoryError p)
      | None => raise (FileNotFoundError p)
      end
  end.

(** [Path.mkdir(exist_ok=True)]: a missing parent is an error; any other
    failure is ignored when the path is a directory already. *)
Definition Path_mkdir_exist_ok (p : path) : M unit :=
  try_except (os_mkdir p) (fun e =>
    match e with
    | FileNotFoundError _ => raise e
    | _ => fs ← get_fs; if isdir fs p then mret tt else raise e
    end).

(** [os.makedirs(p, exist_ok=True)], on the reversed path: create the
    missing parent first (a [FileExistsError] from there is passed over),
    then the leaf, ignoring the failure when the leaf is a directory. *)
Definition mkdir_leaf (p : path) : M unit :=
  try_except (os_mkdir p) (fun e =>
    fs ← get_fs; if isdir fs p then mret tt else raise e).

Fixpoint makedirs_rev (rp : list string) : M unit :=
  match rp with
  | [] => mkdir_leaf []
  | _ :: rhead =>
      fs ← get_fs;
      (if path_exists fs (rev rhead) then mret tt
       else try_except (makedirs_rev rhead) (fun e =>
              match e with FileExistsError _ => mret tt | _ => raise e end));;
      mkdir_leaf (rev rp)
  end.

Definition makedirs (p : path) : M unit := makedirs_rev (rev p).

(** Opening [p] for writing: the checks the operating system makes. *)
Definition open_for_write (p : path) : M unit :=
  fs ← get_fs;
  match lookup_node fs p with
  | Some Dir => raise (IsADirectoryError p)
  | Some (File f) => if f_readonly f then raise (PermissionError p) else mret tt
  | None =>
      match lookup_node fs (dirname p) with
      | Some Dir => mret tt
      | Some (File _) => raise (NotADirectoryError p)
      | None => raise (FileNotFoundError p)
      end
  end.

(** [shutil.copy2(src, dst)]: a directory destination means "into it"; the
    same file twice is refused; content, modification time and permission
    bits of [src] are given to the destination. *)
Definition copy2 (src dst : path) : M unit :=
  fs ← get_fs;
  let dst := if isdir fs dst then dst ++ [basename src] else dst in
  if bool_decide (src = dst) && path_exists fs src then raise (SameFileError src dst)
  else
    match lookup_node fs src with
    | None => raise (FileNotFoundError src)
    | Some Dir => raise (IsADirectoryError src)
    | Some (File f) =>
        open_for_write dst;;
        put_fs (<[dst := File f]> fs);;
        log (EvCopy src dst)
    end.

(** [Image.open(p)]: identifies the file and reads its header. *)
Definition Image_open (p : path) : M image :=
  log (EvOpen p);;
  fs ← get_fs;
  match lookup_node fs p with
  | None => raise (FileNotFoundError p)
  | Some Dir => raise (IsADirectoryError p)
  | Some (File f) =>
      match f_content f with
      | Raw _ => raise (UnidentifiedImageError p)
      | Encoded _ im => mret im
      end
  end.

(** [Image.load]: reads the pixel data, implicitly called by the operations
    below. *)
Definition Image_load (im : image) : M unit :=
  if img_truncated im then raise TruncatedFileError else mret tt.

(** [img.convert(mode)] *)
Definition Image_convert (im : image) (mode : string) : M image :=
  Image_load im;;
  mret (Image mode (img_size im) (Converted mode (img_data im)) false).

(** [img.resize(size, filter)]: the whole image is resampled to [size]. *)
Definition Image_resize (im : image) (size : Z * Z) (filter : string) : M image :=
  Image_load im;;
  mret (Image (img_mode im) size (Resampled filter size (img_data im)) false).

(** [img.save(p, format)] *)
Definition Image_save (im : image) (p : path) (format : string) : M unit :=
  open_for_write p;;
  fs ← get_fs;
  now ← get_clock;
  put_fs (<[p := File (File_ (Encoded format im) now false)]> fs);;
  log (EvSave p).

(** [os.path.relpath(p, start)]: drop the common prefix, climb out of what
    is left of [start], descend into what is left of [p]. *)
Fixpoint strip_common (start p : path) : path * path :=
  match start, p with
  | s :: start', c :: p' =>
      if decide (s = c) then strip_common start' p' else (start, p)
  | _, _ => (start, p)
  end.

Definition relpath (p start : path) : path :=
  let '(up, down) := strip_common start p in
  match replicate (length up) ".." ++ down with
  | [] => ["."]
  | rel => rel
  end.

(** [os.path.join(a, rel)] for a relative [rel] *)
Definition join (a rel : path) : path := a ++ rel.

(** [PurePath.relative_to(base)]: [ValueError] unless [p] is under [base]. *)
Fixpoint relative_to (p base : path) : M path :=
  match base, p with
  | [] , _ => mret p
  | b :: base', c :: p' =>
      if decide (b = c) then relative_to p' base'
      else raise (ValueError "path is not in the subpath of the base")
  | _ :: _, [] => raise (ValueError "path is not in the subpath of the base")
  end.

(** The pattern [*.png]: the name ends in [.png]. *)
Definition is_png_name (name : string) : bool :=
  String.eqb (String.substring (String.length name - 4) 4 name) ".png".

(** [Path.rglob("*.png")]: every entry (file or directory) below [base]
    whose name matches.  The order is that of the map's enumeration; the
    script does not depend on it. *)
Definition rglob_png (fs : gmap path node) (base : path) : list path :=
  List.filter
    (fun p => bool_decide (base `prefix_of` p) && negb (bool_decide (p = base))
              && is_png_name (basename p))
    (map fst (map_to_list fs)).

End Env.

(** ** The script: [resize_to_pow2] and [main] *)

Module Resizer.
Import Classifier Env.

(** Where [resize_to_pow2] puts the backup of [img_path]:
    [rel_path = os.path.relpath(img_path, start=os.path.dirname(backup_dir))],
    [backup_path = os.path.join(backup_dir, rel_path)]. *)
Definition backup_path_of (img_path backup_dir : path) : path :=
  let rel_path := relpath img_path (dirname backup_dir) in
  join backup_dir rel_path.

(** [def resize_to_pow2(img_path, backup_dir)], returning
    [(was_resized, original_size, new_size)]. *)
Definition resize_to_pow2 (img_path backup_dir : path)
  : M (bool * (Z * Z) * (Z * Z)) :=
  img ← Image_open img_path;
  let '(orig_width, orig_height) := img_size img in
  (* Check if already POW2 *)
  if is_pow2 orig_width && is_pow2 orig_height then
    mret (false, (orig_width, orig_height), (orig_width, orig_height))
  else
    (* Calculate POW2 dimensions *)
    let new_width := next_pow2 orig_width in
    let new_height := next_pow2 orig_height in
    (* Backup original *)
    let backup_path := backup_path_of img_path backup_dir in
    makedirs (dirname backup_path);;
    copy2 img_path backup_path;;
    (* Ensure RGBA mode *)
    img ← (if negb (String.eqb (img_mode img) "RGBA")
           then Image_convert img "RGBA" else mret img);
    (* STRETCH the image to POW2 dimensions *)
    new_img ← Image_resize img (new_width, new_height) "LANCZOS";
    (* Save *)
    Image_save new_img img_path "PNG";;
    mret (true, (orig_width, orig_height), (new_width, new_height)).

(** The counters of [main]: [resized_count], [skipped_count], [errors]. *)
Record summary := Summary {
  resized_count : Z;
  skipped_count : Z;
  errors : list (path * string)
}.

(** The body of the [try] block for one file. *)
Definition try_body (assets_dir backup_dir png_path : path) (s : summary)
  : M summary :=
  '(was_resized, orig_size, new_size) ← resize_to_pow2 png_path backup_dir;
  rel_path ← relative_to png_path assets_dir;
  if (was_resized : bool) then
    print ("[RESIZED] " +:+ path_str rel_path +:+ ": "
           +:+ pretty (fst orig_size) +:+ "x" +:+ pretty (snd orig_size)
           +:+ " -> "
           +:+ pretty (fst new_size) +:+ "x" +:+ pretty (snd new_size));;
    mret (Summary (resized_count s + 1) (skipped_count s) (errors s))
  else
    mret (Summary (resized_count s) (skipped_count s + 1) (errors s)).

(** One turn of [for png_path in png_files: try: ... except Exception as e:
    ...]. *)
Definition process_file (assets_dir backup_dir png_path : path) (s : summary)
  : M summary :=
  try_except (try_body assets_dir backup_dir png_path s) (fun e =>
    print ("[ERROR]   " +:+ path_str png_path +:+ ": " +:+ str e);;
    mret (Summary (resized_count s) (skipped_count s)
                  (errors s ++ [(png_path, str e)]))).

Fixpoint main_loop (assets_dir backup_dir : path) (png_files : list path)
  (s : summary) : M summary :=
  match png_files with
  | [] => mret s
  | png_path :: rest =>
      s' ← process_file assets_dir backup_dir png_path s;
      main_loop assets_dir backup_dir rest s'
  end.

(** ["=" * 50] *)
Definition rule : string := String.concat "" (replicate 50 "=").

Definition print_summary (backup_dir : path) (s : summary) : M unit :=
  print "";;
  print rule;;
  print "Summary:";;
  print ("  Resized: " +:+ pretty (resized_count s));;
  print ("  Skipped (already POW2): " +:+ pretty (skipped_count s));;
  print ("  Errors: " +:+ pretty (Z.of_nat (length (errors s))));;
  print "";;
  if 0 <? resized_count s then
    print ("Original files backed up to: " +:+ path_str backup_dir);;
    print "";;
    print "IMPORTANT: After resizing, reload the addon in-game:";;
    print "  /addon reload xivparty"
  else
    print "No files needed resizing.".

(** How a run of the script ends: [exit(status)], an exception nobody
    caught, or the end of [main] (exit status 0) with its counters. *)
Inductive outcome :=
| Exit (status : Z)
| Uncaught (e : exn)
| Done (s : summary).

(** What [main] does once the assets directory is known to exist. *)
Definition main_body (assets_dir backup_dir : path) : M summary :=
  (* Create backup directory *)
  Path_mkdir_exist_ok backup_dir;;
  print "XivParty Texture Resizer";;
  print rule;;
  print ("Assets directory: " +:+ path_str assets_dir);;
  print ("Backup directory: " +:+ path_str backup_dir);;
  print "";;
  (* Find all PNG files *)
  fs ← get_fs;
  let png_files := rglob_png fs assets_dir in
  print ("Found " +:+ pretty (Z.of_nat (length png_files)) +:+ " PNG files");;
  print "";;
  s ← main_loop assets_dir backup_dir png_files (Summary 0 0 []);
  print_summary backup_dir s;;
  mret s.

(** [def main()], with [script_dir = Path(__file__).parent]. *)
Definition main (script_dir : path) (w : world) : world * outcome :=
  let assets_dir := script_dir ++ ["assets"] in
  if negb (path_exists (w_fs w) assets_dir) then
    let '(w', _) :=
      print ("ERROR: Assets directory not found: " +:+ path_str assets_dir) w in
    (w', Exit 1)
  else
    let backup_dir := script_dir ++ ["backup_npot"] in
    match main_body assets_dir backup_dir w with
    | (w', Ok s) => (w', Done s)
    | (w', Raise e) => (w', Uncaught e)
    end.

End Resizer.

(** ** Vocabulary of the statements *)

Module Props.
Import Classifier Env Resizer.

(** The file at [p] is a regular file [f] that decodes to the image [im]. *)
Definition decodes (fs : gmap path node) (p : path) (f : file) (im : image)
  : Prop :=
  lookup_node fs p = Some (File f) /\ exists format, f_content f = Encoded format im.

(** Neither width nor height needs rounding. *)
Definition pow2_size (size : Z * Z) : bool :=
  is_pow2 (fst size) && is_pow2 (snd size).

(** The paths handed to [Image.open], in order. *)
Definition opens (evs : list event) : list path :=
  flat_map (fun ev => match ev with EvOpen p => [p] | _ => [] end) evs.

(** Every directory from the root down to [d] is absent or a directory:
    nothing on the way is a regular file. *)
Fixpoint dir_creatable_rev (fs : gmap path node) (rp : list string) : bool :=
  match rp with
  | [] => true
  | _ :: rhead =>
      match fs !! rev rp with Some (File _) => false | _ => true end
      && dir_creatable_rev fs rhead
  end.

Definition dir_creatable (fs : gmap path node) (d : path) : bool :=
  dir_creatable_rev fs (rev d).

(** [p] can be created or overwritten: absent, or a regular file that is not
    read-only. *)
Definition writable_slot (fs : gmap path node) (p : path) : bool :=
  match lookup_node fs p with
  | None => true
  | Some (File f) => negb (f_readonly f)
  | Some Dir => false
  end.

(** The backup of [img_path] can be written: its place is not the image
    itself (it is when the backup directory is the root), the directories
    above it can be created and the place is free or writable. *)
Definition backup_possible (fs : gmap path node) (img_path backup_dir : path)
  : bool :=
  let backup_path := backup_path_of img_path backup_dir in
  negb (bool_decide (img_path = backup_path))
  && dir_creatable fs (dirname backup_path)
  && writable_slot fs backup_path.

(** The pixel data [resize_to_pow2] resamples: converted to RGBA unless the
    image is in that mode already. *)
Definition rgba_data (im : image) : raster :=
  if String.eqb (img_mode im) "RGBA" then img_data im
  else Converted "RGBA" (img_data im).

(** The image [resize_to_pow2] saves for a decoded image [im]. *)
Definition stretched (im : image) : image :=
  let size := (next_pow2 (fst (img_size im)), next_pow2 (snd (img_size im))) in
  Image "RGBA" size (Resampled "LANCZOS" size (rgba_data im)) false.

(** The entry at [p] is a file that decodes to an image of POW2 size. *)
Definition pow2_png (fs : gmap path node) (p : path) : bool :=
  match lookup_node fs p with
  | Some (File f) =>
      match f_content f with
      | Encoded _ im => pow2_size (img_size im)
      | Raw _ => false
      end
  | _ => false
  end.

(** No PNG below [assets_dir] needs resizing. *)
Definition no_resize_needed (fs : gmap path node) (assets_dir : path) : bool :=
  forallb (pow2_png fs) (rglob_png fs assets_dir).

(** What a computation never breaks: [R] relates the world before to the
    world after, whether the computation returns or raises. *)
Definition preserves {A : Type} (R : world -> world -> Prop) (c : M A) : Prop :=
  forall w, R w (c w).1.

(** The file system only gained directories, all of them on the way to [d];
    the log only gained their creation; nothing was printed. *)
Definition only_mkdirs (d : path) (w w' : world) : Prop :=
  w_out w' = w_out w
  /\ (exists ds, w_log w' = w_log w ++ map EvMkdir ds)
  /\ forall q, w_fs w' !! q = w_fs w !! q
               \/ (w_fs w !! q = None /\ w_fs w' !! q = Some Dir /\ q `prefix_of` d).

(** Events happened, none of them an [Image.open]. *)
Definition reads_nothing (w w' : world) : Prop :=
  exists evs, w_log w' = w_log w ++ evs /\ opens evs = [].

(** The world after [Image.open(p)] was attempted. *)
Definition opened (p : path) (w : world) : world :=
  World (w_fs w) (w_clock w) (w_log w ++ [EvOpen p]) (w_out w).

(** The world after the [except] branch of the driver printed [e]. *)
Definition reported (p : path) (e : exn) (w : world) : world :=
  World (w_fs w) (w_clock w) (w_log w)
        (w_out w ++ ["[ERROR]   " +:+ path_str p +:+ ": " +:+ str e]).

(** What a run may do to the file system: every entry that existed still
    exists, a directory is still a directory, and an entry is left exactly
    as it was unless it is one of [imgs] or lies below [backup_dir]. *)
Definition touches_only (imgs : list path) (backup_dir : path) (w w' : world)
  : Prop :=
  forall q n, w_fs w !! q = Some n ->
    is_Some (w_fs w' !! q)
    /\ (n = Dir -> w_fs w' !! q = Some Dir)
    /\ (q ∉ imgs -> ¬ backup_dir `prefix_of` q -> w_fs w' !! q = Some n).

(** The same, and nothing was printed. *)
Definition confined (imgs : list path) (backup_dir : path) (w w' : world)
  : Prop :=
  touches_only imgs backup_dir w w' /\ w_out w' = w_out w.

(** A line the loop of the driver prints for a file. *)
Definition report_line (line : string) : bool :=
  String.prefix "[RESIZED] " line || String.prefix "[ERROR]   " line.

End Props.

(** ** Example worlds *)

Module Examples.
Import Classifier Env Resizer Props.

(** The script lives in [/opt/xivparty]. *)
Definition script_dir : path := ["opt"; "xivparty"].
Definition assets_dir : path := script_dir ++ ["assets"].
Definition backup_dir : path := script_dir ++ ["backup_npot"].

(** [a.png]: 377 x 21, RGB, no alpha channel. *)
Definition img_a : image := Image "RGB" (377, 21) (Stored [10; 20; 30]) false.
Definition file_a : file := File_ (Encoded "PNG" img_a) 5 false.
Definition a_png : path := assets_dir ++ ["ui"; "a.png"].

(** [b.png]: 256 x 256, RGBA. *)
Definition img_b : image := Image "RGBA" (256, 256) (Stored [40]) false.
Definition file_b : file := File_ (Encoded "PNG" img_b) 6 false.
Definition b_png : path := assets_dir ++ ["b.png"].

(** [c.png]: bytes that are no image. *)
Definition file_c : file := File_ (Raw [0; 1; 2]) 7 false.
Definition c_png : path := assets_dir ++ ["c.png"].

Definition fs_script : gmap path node :=
  <[ script_dir := Dir ]> (<[ ["opt"] := Dir ]> ∅).

(** No assets directory next to the script. *)
Definition world_no_assets : world := World fs_script 100 [] [].

(** Only [b.png], which is POW2 already. *)
Definition world_all_pow2 : world :=
  World (<[ b_png := File file_b ]> (<[ assets_dir := Dir ]> fs_script)) 100 [] [].

(** The mixed batch: [ui/a.png] to resize, [b.png] to skip, [c.png] broken. *)
Definition world_mixed : world :=
  World (<[ a_png := File file_a ]>
         (<[ b_png := File file_b ]>
         (<[ c_png := File file_c ]>
         (<[ assets_dir ++ ["ui"] := Dir ]>
         (<[ assets_dir := Dir ]> fs_script))))) 100 [] [].

(** [ui/a.png] alone, read-only. *)
Definition file_a_readonly : file := File_ (Encoded "PNG" img_a) 5 true.
Definition world_readonly : world :=
  World (<[ a_png := File file_a_readonly ]>
         (<[ assets_dir ++ ["ui"] := Dir ]>
         (<[ assets_dir := Dir ]> fs_script))) 100 [] [].

(** A regular file sits where the backup directory should be. *)
Definition world_backup_is_file : world :=
  World (<[ backup_dir := File file_c ]> (w_fs world_mixed)) 100 [] [].

(** The backup directory is there already. *)
Definition world_backup_exists : world :=
  World (<[ backup_dir := Dir ]> (w_fs world_mixed)) 100 [] [].

End Examples.
Module ClassifierFacts.
Import Classifier.

Lemma log2_up_le_pow2 n j : 0 <= j -> n <= 2 ^ j -> Z.log2_up n <= j.
Proof.
  intros Hj Hn. destruct (Z.le_gt_cases n 1) as [H1 | H1].
  - rewrite Z.log2_up_eqn0 by lia. lia.
  - apply Z.log2_up_le_pow2; lia.
Qed.

Lemma pow2_lt_log2_up n j : 0 <= j -> 2 ^ j < n -> j < Z.log2_up n.
Proof.
  intros Hj Hn.
  assert (1 <= 2 ^ j) by (apply Z.pow_le_mono_r with (b := 0) (c := j) (a := 2); lia).
  apply Z.log2_up_lt_pow2; lia.
Qed.

Lemma le_pow2_log2_up n : n <= 2 ^ Z.log2_up n.
Proof.
  destruct (Z.le_gt_cases n 1) as [H1 | H1].
  - rewrite Z.log2_up_eqn0 by lia. simpl. lia.
  - apply Z.log2_up_spec. lia.
Qed.

Lemma doubling_closed_form fuel : forall j n,
  0 <= j -> (Z.to_nat (Z.log2_up n - j) < fuel)%nat ->
  doubling fuel (2 ^ j) n = Some (2 ^ Z.max j (Z.log2_up n)).
Proof.
  induction fuel as [| fuel IH]; intros j n Hj Hfuel; [lia |].
  simpl. destruct (Z.ltb_spec (2 ^ j) n) as [Hlt | Hge].
  - pose proof (pow2_lt_log2_up n j Hj Hlt) as HL.
    replace (2 ^ j * 2) with (2 ^ (j + 1)) by (rewrite Z.pow_add_r; lia).
    rewrite IH by lia. f_equal. f_equal. lia.
  - pose proof (log2_up_le_pow2 n j Hj Hge). f_equal. f_equal. lia.
Qed.

Lemma next_pow2_fuel_enough n :
  doubling (next_pow2_fuel n) 1 n = Some (2 ^ Z.log2_up n).
Proof.
  unfold next_pow2_fuel.
  change 1 with (2 ^ 0) at 1.
  rewrite doubling_closed_form; [| lia |].
  - f_equal. f_equal. pose proof (Z.log2_up_nonneg n). lia.
  - pose proof (Z.log2_up_nonneg n). lia.
Qed.

Lemma next_pow2_closed_form n : next_pow2 n = 2 ^ Z.log2_up n.
Proof. unfold next_pow2. now rewrite next_pow2_fuel_enough. Qed.


Lemma next_pow2_power_of_two n : power_of_two (next_pow2 n).
Proof.
  exists (Z.log2_up n). split; [apply Z.log2_up_nonneg | apply next_pow2_closed_form].
Qed.

Lemma next_pow2_ge n : n <= next_pow2 n.
Proof. rewrite next_pow2_closed_form. apply le_pow2_log2_up. Qed.

Lemma next_pow2_least n m : power_of_two m -> n <= m -> next_pow2 n <= m.
Proof.
  intros (j & Hj & ->) Hle. rewrite next_pow2_closed_form.
  apply Z.pow_le_mono_r; [lia |]. now apply log2_up_le_pow2.
Qed.

(** The bit trick of [is_pow2]. *)
Lemma land_pred_pow2 k : 0 <= k -> Z.land (2 ^ k) (2 ^ k - 1) = 0.
Proof.
  intros Hk. rewrite Z.sub_1_r, <- Z.ones_equiv, Z.land_ones by assumption.
  apply Z.mod_same. apply Z.pow_nonzero; lia.
Qed.

Lemma land_pred_not_pow2 n : 0 < n -> n <> 2 ^ Z.log2 n -> Z.land n (n - 1) <> 0.
Proof.
  intros Hn Hne Hland.
  destruct (Z.log2_spec n Hn) as [Hlo Hhi].
  pose proof (Z.log2_nonneg n) as Hk.
  assert (Hlog : Z.log2 (n - 1) = Z.log2 n) by (apply Z.log2_unique; lia).
  assert (Hb1 : Z.testbit n (Z.log2 n) = true) by now apply Z.bit_log2.
  assert (Hb2 : Z.testbit (n - 1) (Z.log2 n) = true).
  { rewrite <- Hlog. apply Z.bit_log2. lia. }
  assert (Hb : Z.testbit (Z.land n (n - 1)) (Z.log2 n) = true)
    by now rewrite Z.land_spec, Hb1, Hb2.
  rewrite Hland, Z.bits_0 in Hb. discriminate.
Qed.

Lemma is_pow2_power_of_two n : is_pow2 n = true <-> power_of_two n.
Proof.
  unfold is_pow2. rewrite andb_true_iff, Z.ltb_lt, Z.eqb_eq. split.
  - intros [Hpos Hland]. exists (Z.log2 n). split; [apply Z.log2_nonneg |].
    destruct (Z.eq_dec n (2 ^ Z.log2 n)) as [| Hne]; [assumption |].
    now destruct (land_pred_not_pow2 n Hpos Hne).
  - intros (k & Hk & ->). split; [now apply Z.pow_pos_nonneg | now apply land_pred_pow2].
Qed.

Lemma one_bit_set_power_of_two n : one_bit_set n <-> power_of_two n.
Proof.
  split; intros (k & Hk & H); exists k; (split; [assumption |]).
  - apply Z.bits_inj'. intros i _. rewrite H, Z.pow2_bits_eqb by assumption.
    apply Z.eqb_sym.
  - intros i. subst n. rewrite Z.pow2_bits_eqb by assumption. apply Z.eqb_sym.
Qed.

Lemma is_pow2_nonpos n : n <= 0 -> is_pow2 n = false.
Proof. intros Hn. unfold is_pow2. destruct (Z.ltb_spec 0 n); [lia | reflexivity]. Qed.

(** The fuel-bounded loop and the big-step loop agree. *)
Lemma doubling_loop_run fuel : forall p n r,
  doubling fuel p n = Some r -> exists k, (k < fuel)%nat /\ loop_run n p k r.
Proof.
  induction fuel as [| fuel IH]; intros p n r H; [discriminate |].
  simpl in H. destruct (Z.ltb_spec p n) as [Hlt | Hge].
  - destruct (IH _ _ _ H) as (k & Hk & Hrun). exists (S k). split; [lia |].
    now apply loop_iter.
  - injection H as <-. exists 0%nat. split; [lia |]. apply loop_exit. lia.
Qed.

Lemma loop_run_doubling n p k r :
  loop_run n p k r -> forall fuel, (k < fuel)%nat -> doubling fuel p n = Some r.
Proof.
  induction 1 as [p Hge | p k r Hlt _ IH]; intros [| fuel] Hfuel; try lia; simpl.
  - destruct (Z.ltb_spec p n); [lia | reflexivity].
  - destruct (Z.ltb_spec p n); [| lia]. apply IH. lia.
Qed.

Lemma loop_run_deterministic n p k r k' r' :
  loop_run n p k r -> loop_run n p k' r' -> k = k' /\ r = r'.
Proof.
  intros H. revert k' r'.
  induction H as [p Hge | p k r Hlt _ IH]; intros k' r' H';
    inversion H' as [q Hge' | q j s Hlt' Hrest]; subst; try contradiction.
  - split; reflexivity.
  - destruct (IH _ _ Hrest) as [-> ->]. split; reflexivity.
Qed.

Lemma next_pow2_loop_run n : exists k, loop_run n 1 k (next_pow2 n).
Proof.
  destruct (doubling_loop_run (next_pow2_fuel n) 1 n (next_pow2 n)) as (k & _ & H).
  - rewrite next_pow2_fuel_enough. f_equal. symmetry. apply next_pow2_closed_form.
  - now exists k.
Qed.

(** C1: for every positive n, next_pow2 n is a power of two (as a number and
    for is_pow2), is at least n, is below every other power of two that is at
    least n, so that no power of two lies in [n, next_pow2 n) apart possibly
    from n itself, and is n when n is a power of two already. *)
Theorem next_pow2_smallest_power_of_two n :
  0 < n ->
  power_of_two (next_pow2 n)
  /\ is_pow2 (next_pow2 n) = true
  /\ n <= next_pow2 n
  /\ (forall m, power_of_two m -> n <= m -> next_pow2 n <= m)
  /\ (forall m, power_of_two m -> n <= m < next_pow2 n -> m = n)
  /\ (is_pow2 n = true -> next_pow2 n = n).
Proof.
  intros Hn. repeat split.
  - apply next_pow2_power_of_two.
  - apply is_pow2_power_of_two, next_pow2_power_of_two.
  - apply next_pow2_ge.
  - apply next_pow2_least.
  - intros m Hm [Hlo Hhi]. pose proof (next_pow2_least n m Hm Hlo). lia.
  - intros Hp. apply is_pow2_power_of_two in Hp.
    pose proof (next_pow2_least n n Hp (Z.le_refl n)).
    pose proof (next_pow2_ge n). lia.
Qed.

Lemma next_pow2_smallest_power_of_two_witness :
  0 < 377 /\ next_pow2 377 = 512 /\ is_pow2 (next_pow2 377) = true.
Proof.
  split; [lia |]. split; [reflexivity |].
  apply (next_pow2_smallest_power_of_two 377). lia.
Defined.

(** C9: is_pow2 n holds exactly when n is positive and its binary
    representation has exactly one set bit; it is false for every n <= 0. *)
Theorem is_pow2_one_bit_set n :
  (is_pow2 n = true <-> 0 < n /\ one_bit_set n)
  /\ (n <= 0 -> is_pow2 n = false).
Proof.
  split; [| apply is_pow2_nonpos].
  rewrite is_pow2_power_of_two, one_bit_set_power_of_two. split.
  - intros Hp. split; [| assumption]. destruct Hp as (k & Hk & ->).
    now apply Z.pow_pos_nonneg.
  - now intros [_ Hp].
Qed.

Lemma is_pow2_one_bit_set_witness : is_pow2 (-8) = false /\ is_pow2 0 = false.
Proof.
  split; apply (is_pow2_one_bit_set _); lia.
Defined.

(** C10: next_pow2 is total on all integers: the loop terminates for every
    n, with the value next_pow2 returns, whatever fuel beyond the bound is
    given; for n <= 1 the body is never executed and the result is 1; for
    n >= 2 the body is executed at least once and the loop still ends. *)
Theorem next_pow2_total n :
  (exists k, loop_run n 1 k (next_pow2 n))
  /\ (forall fuel, (next_pow2_fuel n <= fuel)%nat ->
        doubling fuel 1 n = Some (next_pow2 n))
  /\ (n <= 1 -> loop_run n 1 0 1 /\ next_pow2 n = 1)
  /\ (2 <= n -> exists k, loop_run n 1 (S k) (next_pow2 n)).
Proof.
  pose proof (next_pow2_fuel_enough n) as Hfuel.
  rewrite <- next_pow2_closed_form in Hfuel.
  destruct (doubling_loop_run _ _ _ _ Hfuel) as (k & Hk & Hrun).
  split; [now exists k |]. split; [| split].
  - intros fuel Hle. apply (loop_run_doubling _ _ _ _ Hrun). lia.
  - intros Hle. assert (Hexit : loop_run n 1 0 1) by (apply loop_exit; lia).
    split; [assumption |].
    now destruct (loop_run_deterministic _ _ _ _ _ _ Hrun Hexit).
  - intros Hge. inversion Hrun as [p Hp | p j r _ Hrest]; subst; [lia |].
    now exists j.
Qed.

Lemma next_pow2_total_witness :
  (loop_run (-5) 1 0 1 /\ next_pow2 (-5) = 1)
  /\ (exists k, loop_run 377 1 (S k) (next_pow2 377)).
Proof.
  split.
  - apply (next_pow2_total (-5)). lia.
  - apply (next_pow2_total 377). lia.
Defined.

End ClassifierFacts.

(** ** Facts about the environment *)

Module EnvFacts.
Import Classifier Env Resizer Props.

Lemma bind_run {A B : Type} (c : M A) (k : A -> M B) w :
  (c ≫= k) w =
  match c w with
  | (w', Ok a) => k a w'
  | (w', Raise e) => (w', Raise e)
  end.
Proof. reflexivity. Qed.

Lemma ret_run {A : Type} (a : A) w : (mret a : M A) w = (w, Ok a).
Proof. reflexivity. Qed.

Lemma try_except_run {A : Type} (c : M A) (h : exn -> M A) w :
  try_except c h w =
  match c w with
  | (w', Ok a) => (w', Ok a)
  | (w', Raise e) => h e w'
  end.
Proof. reflexivity. Qed.

Lemma bind_get_fs {B : Type} (k : gmap path node -> M B) w :
  (get_fs ≫= k) w = k (w_fs w) w.
Proof. reflexivity. Qed.

Lemma bind_log {B : Type} ev (k : unit -> M B) w :
  (log ev ≫= k) w = k tt (World (w_fs w) (w_clock w) (w_log w ++ [ev]) (w_out w)).
Proof. reflexivity. Qed.

Lemma bind_print {B : Type} line (k : unit -> M B) w :
  (print line ≫= k) w =
  k tt (World (w_fs w) (w_clock w) (w_log w) (w_out w ++ [line])).
Proof. reflexivity. Qed.

Section Preserves.
Context (R : world -> world -> Prop) `{!PreOrder R}.

Lemma preserves_ret {A : Type} (a : A) : preserves R (mret a).
Proof. intros w. simpl. reflexivity. Qed.

Lemma preserves_raise {A : Type} (e : exn) : preserves R (raise (A := A) e).
Proof. intros w. simpl. reflexivity. Qed.

Lemma preserves_get_fs : preserves R get_fs.
Proof. intros w. simpl. reflexivity. Qed.

Lemma preserves_get_clock : preserves R get_clock.
Proof. intros w. simpl. reflexivity. Qed.

Lemma preserves_bind {A B : Type} (c : M A) (k : A -> M B) :
  preserves R c -> (forall a, preserves R (k a)) -> preserves R (c ≫= k).
Proof.
  intros Hc Hk w. rewrite bind_run. specialize (Hc w).
  destruct (c w) as [w1 [a | e]]; simpl in *; [| assumption].
  etransitivity; [exact Hc | apply Hk].
Qed.

Lemma preserves_try_except {A : Type} (c : M A) (h : exn -> M A) :
  preserves R c -> (forall e, preserves R (h e)) -> preserves R (try_except c h).
Proof.
  intros Hc Hh w. rewrite try_except_run. specialize (Hc w).
  destruct (c w) as [w1 [a | e]]; simpl in *; [assumption |].
  etransitivity; [exact Hc | apply Hh].
Qed.

Lemma preserves_if {A : Type} (b : bool) (c1 c2 : M A) :
  preserves R c1 -> preserves R c2 -> preserves R (if b then c1 else c2).
Proof. now destruct b. Qed.
End Preserves.

#[export] Instance only_mkdirs_preorder d : PreOrder (only_mkdirs d).
Proof.
  split.
  - intros w. split; [reflexivity |]. split; [exists []; simpl; now rewrite app_nil_r |].
    intros q. now left.
  - intros w1 w2 w3 (Ho1 & (ds1 & Hl1) & Hf1) (Ho2 & (ds2 & Hl2) & Hf2).
    split; [congruence |]. split.
    + exists (ds1 ++ ds2). rewrite Hl2, Hl1, map_app, app_assoc. reflexivity.
    + intros q. destruct (Hf1 q) as [E1 | (N1 & D1 & P1)], (Hf2 q) as [E2 | (N2 & D2 & P2)].
      * left. congruence.
      * right. repeat split; congruence || assumption.
      * right. repeat split; congruence || assumption.
      * congruence.
Qed.

Lemma opens_app l1 l2 : opens (l1 ++ l2) = opens l1 ++ opens l2.
Proof. unfold opens. apply flat_map_app. Qed.

Lemma opens_mkdirs ds : opens (map EvMkdir ds) = [].
Proof. induction ds as [| d ds IH]; [reflexivity | exact IH]. Qed.

#[export] Instance reads_nothing_preorder : PreOrder reads_nothing.
Proof.
  split.
  - intros w. exists []. now rewrite app_nil_r.
  - intros w1 w2 w3 (e1 & H1 & O1) (e2 & H2 & O2). exists (e1 ++ e2).
    rewrite H2, H1, app_assoc, opens_app, O1, O2. split; reflexivity.
Qed.

Lemma only_mkdirs_mono d d' w w' :
  d `prefix_of` d' -> only_mkdirs d w w' -> only_mkdirs d' w w'.
Proof.
  intros Hd (Ho & Hl & Hf). split; [assumption |]. split; [assumption |].
  intros q. destruct (Hf q) as [E | (N & D & P)]; [now left | right].
  repeat split; try assumption. now transitivity d.
Qed.

Lemma only_mkdirs_reads_nothing d w w' : only_mkdirs d w w' -> reads_nothing w w'.
Proof.
  intros (_ & (ds & Hl) & _). exists (map EvMkdir ds). split; [assumption |].
  apply opens_mkdirs.
Qed.

Lemma dirname_snoc (p : path) c : dirname (p ++ [c]) = p.
Proof. apply removelast_last. Qed.

Lemma lookup_node_snoc fs (p : path) c : lookup_node fs (p ++ [c]) = fs !! (p ++ [c]).
Proof. unfold lookup_node. destruct (p ++ [c]) eqn:E; [| reflexivity]. now destruct p. Qed.

(** [os.mkdir] changes nothing or creates the one directory. *)
Lemma os_mkdir_only_mkdirs p : preserves (only_mkdirs p) (os_mkdir p).
Proof.
  intros w. unfold os_mkdir. rewrite bind_run. simpl.
  destruct (lookup_node (w_fs w) p) as [n |] eqn:Hp; simpl; [reflexivity |].
  destruct (lookup_node (w_fs w) (dirname p)) as [[| f] |]; simpl; try reflexivity.
  split; [reflexivity |]. split; [now exists [p] |]. simpl.
  intros q. destruct (decide (p = q)) as [<- | Hne].
  - right. rewrite lookup_insert_eq. repeat split; [| reflexivity].
    destruct p; [discriminate | exact Hp].
  - left. now rewrite lookup_insert_ne.
Qed.

Lemma mkdir_leaf_only_mkdirs p : preserves (only_mkdirs p) (mkdir_leaf p).
Proof.
  apply preserves_try_except; [apply _ | apply os_mkdir_only_mkdirs |].
  intros e. apply preserves_bind; [apply _ | apply preserves_get_fs; apply _ |].
  intros fs. apply preserves_if; [apply preserves_ret | apply preserves_raise]; apply _.
Qed.

Lemma makedirs_rev_only_mkdirs rp :
  preserves (only_mkdirs (rev rp)) (makedirs_rev rp).
Proof.
  induction rp as [| c rhead IH]; [apply mkdir_leaf_only_mkdirs |].
  cbn [makedirs_rev].
  apply preserves_bind; [apply _ | apply preserves_get_fs; apply _ |]. intros fs.
  apply preserves_bind; [apply _ | | intros _; apply mkdir_leaf_only_mkdirs].
  apply preserves_if; [apply preserves_ret; apply _ |].
  intros w. eapply only_mkdirs_mono; [| revert w].
  - simpl. now apply prefix_app_r.
  - apply preserves_try_except; [apply _ | exact IH |].
    intros e. destruct e; apply preserves_ret || apply preserves_raise; apply _.
Qed.

Lemma makedirs_only_mkdirs p : preserves (only_mkdirs p) (makedirs p).
Proof.
  unfold makedirs. pose proof (makedirs_rev_only_mkdirs (rev p)) as H.
  now rewrite rev_involutive in H.
Qed.


Lemma isdir_lookup fs p : isdir fs p = true <-> lookup_node fs p = Some Dir.
Proof.
  unfold isdir. destruct (lookup_node fs p) as [[| f] |]; split; congruence.
Qed.

Lemma mkdir_leaf_ok p w :
  (forall f, lookup_node (w_fs w) p <> Some (File f)) ->
  isdir (w_fs w) (dirname p) = true ->
  exists w', mkdir_leaf p w = (w', Ok tt) /\ isdir (w_fs w') p = true.
Proof.
  intros Hnf Hparent. apply isdir_lookup in Hparent.
  unfold mkdir_leaf, os_mkdir. rewrite try_except_run, bind_run. simpl.
  destruct (lookup_node (w_fs w) p) as [[| f] |] eqn:Hp; simpl.
  - rewrite bind_run. simpl. unfold isdir. rewrite Hp. simpl. exists w.
    split; [reflexivity |]. now rewrite Hp.
  - now destruct (Hnf f).
  - rewrite Hparent. simpl. eexists. split; [reflexivity |]. simpl.
    apply isdir_lookup. destruct p; [discriminate |]. simpl. apply lookup_insert_eq.
Qed.

Lemma dir_creatable_rev_not_file fs rp f :
  dir_creatable_rev fs rp = true -> lookup_node fs (rev rp) <> Some (File f).
Proof.
  destruct rp as [| c rhead]; [discriminate |].
  cbn [dir_creatable_rev]. intros H. apply andb_true_iff in H as [H _].
  simpl rev in *. rewrite lookup_node_snoc. intros E. now rewrite E in H.
Qed.

Lemma not_prefix_snoc (p : path) c : ¬ (p ++ [c]) `prefix_of` p.
Proof.
  intros H. apply prefix_length in H. rewrite length_app in H. simpl in H. lia.
Qed.

(** [os.makedirs] succeeds when no regular file is in the way, and leaves a
    directory. *)
Lemma makedirs_rev_ok rp : forall w,
  dir_creatable_rev (w_fs w) rp = true ->
  exists w', makedirs_rev rp w = (w', Ok tt) /\ isdir (w_fs w') (rev rp) = true.
Proof.
  induction rp as [| c rhead IH]; intros w Hc.
  - apply mkdir_leaf_ok; [discriminate | reflexivity].
  - cbn [makedirs_rev]. rewrite bind_get_fs.
    assert (Hleaf : forall f, lookup_node (w_fs w) (rev (c :: rhead)) <> Some (File f))
      by (intros f; now apply dir_creatable_rev_not_file).
    cbn [dir_creatable_rev] in Hc. apply andb_true_iff in Hc as [_ Hc].
    rewrite bind_run.
    destruct (path_exists (w_fs w) (rev rhead)) eqn:Hex.
    + simpl. apply mkdir_leaf_ok; [exact Hleaf |].
      simpl rev. rewrite dirname_snoc. apply isdir_lookup.
      unfold path_exists in Hex.
      destruct (lookup_node (w_fs w) (rev rhead)) as [[| f] |] eqn:Hh;
        [reflexivity | | discriminate].
      now destruct (dir_creatable_rev_not_file _ _ f Hc).
    + destruct (IH w Hc) as (w1 & Hrun & Hdir).
      pose proof (makedirs_rev_only_mkdirs rhead w) as Hframe.
      rewrite try_except_run, Hrun in *. simpl in Hframe.
      apply mkdir_leaf_ok.
      * intros f Hf. destruct Hframe as (_ & _ & Hfs).
        simpl rev in *. rewrite lookup_node_snoc in Hf.
        destruct (Hfs (rev rhead ++ [c])) as [E | (_ & D & P)].
        -- apply (Hleaf f). rewrite lookup_node_snoc. congruence.
        -- congruence.
      * simpl rev. now rewrite dirname_snoc.
Qed.

Lemma makedirs_ok p w :
  dir_creatable (w_fs w) p = true ->
  exists w', makedirs p w = (w', Ok tt)
             /\ isdir (w_fs w') p = true /\ only_mkdirs p w w'.
Proof.
  intros H. destruct (makedirs_rev_ok (rev p) w H) as (w' & Hrun & Hdir).
  rewrite rev_involutive in Hdir. exists w'.
  split; [assumption |]. split; [assumption |].
  pose proof (makedirs_only_mkdirs p w) as Hf. unfold makedirs in Hf.
  now rewrite Hrun in Hf.
Qed.

(** What [shutil.copy2] does when it returns, and that it does nothing when
    it raises. *)
Lemma copy2_run src dst w w1 r :
  copy2 src dst w = (w1, r) ->
  match r with
  | Raise _ => w1 = w
  | Ok _ =>
      exists f dst',
        lookup_node (w_fs w) src = Some (File f)
        /\ src <> dst'
        /\ dst' = (if isdir (w_fs w) dst then dst ++ [basename src] else dst)
        /\ w1 = World (<[dst' := File f]> (w_fs w)) (w_clock w + 1)
                      (w_log w ++ [EvCopy src dst']) (w_out w)
  end.
Proof.
  unfold copy2. rewrite bind_get_fs. cbv zeta.
  set (dst' := if isdir (w_fs w) dst then dst ++ [basename src] else dst).
  destruct (bool_decide (src = dst') && path_exists (w_fs w) src) eqn:Hsame.
  { intros [= <- <-]. reflexivity. }
  unfold path_exists in Hsame.
  destruct (lookup_node (w_fs w) src) as [[| f] |] eqn:Hsrc;
    try (intros [= <- <-]; reflexivity).
  rewrite andb_true_r in Hsame. apply bool_decide_eq_false in Hsame.
  rewrite bind_run. unfold open_for_write. rewrite bind_get_fs.
  destruct (lookup_node (w_fs w) dst') as [[| g] |] eqn:Hdst;
    [intros [= <- <-]; reflexivity | |].
  - destruct (f_readonly g); simpl; intros [= <- <-]; [reflexivity |].
    exists f, dst'. repeat split; try assumption; reflexivity.
  - destruct (lookup_node (w_fs w) (dirname dst')) as [[| g] |];
      simpl; intros [= <- <-]; try reflexivity.
    exists f, dst'. repeat split; try assumption; reflexivity.
Qed.

Lemma copy2_ok src dst w f :
  lookup_node (w_fs w) src = Some (File f) ->
  src <> dst ->
  writable_slot (w_fs w) dst = true ->
  isdir (w_fs w) (dirname dst) = true ->
  copy2 src dst w =
    (World (<[dst := File f]> (w_fs w)) (w_clock w + 1)
           (w_log w ++ [EvCopy src dst]) (w_out w), Ok tt).
Proof.
  intros Hsrc Hne Hslot Hparent. apply isdir_lookup in Hparent.
  assert (Hnd : isdir (w_fs w) dst = false).
  { unfold writable_slot in Hslot. unfold isdir.
    now destruct (lookup_node (w_fs w) dst) as [[| g] |]. }
  unfold copy2. rewrite bind_get_fs. cbv zeta. rewrite Hnd.
  rewrite bool_decide_eq_false_2 by assumption. cbn [andb].
  rewrite Hsrc, bind_run. unfold open_for_write. rewrite bind_get_fs.
  unfold writable_slot in Hslot.
  destruct (lookup_node (w_fs w) dst) as [[| g] |] eqn:Hdst; [discriminate | |].
  - apply negb_true_iff in Hslot. rewrite Hslot. reflexivity.
  - rewrite Hparent. reflexivity.
Qed.


(** Stepping through a computation whose parts are known to preserve [R]. *)
Ltac preserves_step :=
  first
    [ apply preserves_ret; typeclasses eauto
    | apply preserves_raise; typeclasses eauto
    | apply preserves_get_fs; typeclasses eauto
    | apply preserves_get_clock; typeclasses eauto
    | apply preserves_bind; [typeclasses eauto | | intros ?]
    | apply preserves_try_except; [typeclasses eauto | | intros ?]
    | apply preserves_if ].

Lemma print_reads_nothing line : preserves reads_nothing (print line).
Proof. intros w. exists []. simpl. now rewrite app_nil_r. Qed.

Lemma put_fs_reads_nothing fs : preserves reads_nothing (put_fs fs).
Proof. intros w. exists []. simpl. now rewrite app_nil_r. Qed.

Lemma log_reads_nothing ev :
  opens [ev] = [] -> preserves reads_nothing (log ev).
Proof. intros H w. now exists [ev]. Qed.

Lemma open_for_write_reads_nothing p : preserves reads_nothing (open_for_write p).
Proof.
  unfold open_for_write. preserves_step; [preserves_step |].
  repeat (match goal with |- context [match ?x with _ => _ end] => destruct x end);
    preserves_step.
Qed.

Lemma copy2_reads_nothing src dst : preserves reads_nothing (copy2 src dst).
Proof.
  unfold copy2. preserves_step; [preserves_step |]. cbv zeta.
  preserves_step; [preserves_step |].
  destruct (lookup_node _ src) as [[| f] |]; try preserves_step.
  - apply open_for_write_reads_nothing.
  - preserves_step; [apply put_fs_reads_nothing | now apply log_reads_nothing].
Qed.

Lemma Image_load_reads_nothing im : preserves reads_nothing (Image_load im).
Proof. unfold Image_load. preserves_step; preserves_step. Qed.

Lemma Image_convert_reads_nothing im mode :
  preserves reads_nothing (Image_convert im mode).
Proof.
  unfold Image_convert. preserves_step;
    [apply Image_load_reads_nothing | preserves_step].
Qed.

Lemma Image_resize_reads_nothing im size filter :
  preserves reads_nothing (Image_resize im size filter).
Proof.
  unfold Image_resize. preserves_step;
    [apply Image_load_reads_nothing | preserves_step].
Qed.

Lemma Image_save_reads_nothing im p format :
  preserves reads_nothing (Image_save im p format).
Proof.
  unfold Image_save. preserves_step; [apply open_for_write_reads_nothing |].
  preserves_step; [preserves_step |]. preserves_step; [preserves_step |].
  preserves_step; [apply put_fs_reads_nothing | now apply log_reads_nothing].
Qed.

Lemma makedirs_reads_nothing p : preserves reads_nothing (makedirs p).
Proof.
  intros w. eapply only_mkdirs_reads_nothing. apply makedirs_only_mkdirs.
Qed.

Lemma relative_to_pure p : forall base w, (relative_to p base w).1 = w.
Proof.
  induction p as [| c p IH]; intros [| b base] w; try reflexivity.
  simpl. destruct (decide (b = c)); [apply IH | reflexivity].
Qed.

Lemma relative_to_reads_nothing p base : preserves reads_nothing (relative_to p base).
Proof. intros w. rewrite relative_to_pure. reflexivity. Qed.

Lemma relative_to_under (base rel : path) w :
  relative_to (base ++ rel) base w = (w, Ok rel).
Proof.
  induction base as [| b base IH]; simpl; [now destruct rel |].
  now rewrite decide_True by reflexivity.
Qed.

End EnvFacts.

(** ** Facts about the transformer [resize_to_pow2] *)

Module ResizerFacts.
Import Classifier Env Resizer Props Examples EnvFacts.

Lemma Image_open_world p w : (Image_open p w).1 = opened p w.
Proof.
  unfold Image_open. rewrite bind_log, bind_get_fs. cbn [w_fs].
  destruct (lookup_node (w_fs w) p) as [[| f] |]; [reflexivity | | reflexivity].
  now destruct (f_content f).
Qed.

Lemma Image_open_decodes p w f im :
  decodes (w_fs w) p f im -> Image_open p w = (opened p w, Ok im).
Proof.
  intros [Hp [format Hc]]. unfold Image_open. rewrite bind_log, bind_get_fs. cbn [w_fs].
  now rewrite Hp, Hc.
Qed.

Lemma Image_save_run im p format w :
  Image_save im p format w =
  match lookup_node (w_fs w) p with
  | Some Dir => (w, Raise (IsADirectoryError p))
  | Some (File g) =>
      if f_readonly g then (w, Raise (PermissionError p))
      else (World (<[p := File (File_ (Encoded format im) (w_clock w) false)]> (w_fs w))
                  (w_clock w + 1) (w_log w ++ [EvSave p]) (w_out w), Ok tt)
  | None =>
      match lookup_node (w_fs w) (dirname p) with
      | Some Dir =>
          (World (<[p := File (File_ (Encoded format im) (w_clock w) false)]> (w_fs w))
                 (w_clock w + 1) (w_log w ++ [EvSave p]) (w_out w), Ok tt)
      | Some (File _) => (w, Raise (NotADirectoryError p))
      | None => (w, Raise (FileNotFoundError p))
      end
  end.
Proof.
  unfold Image_save, open_for_write. rewrite bind_run, bind_get_fs.
  destruct (lookup_node (w_fs w) p) as [[| g] |]; [reflexivity | |].
  - now destruct (f_readonly g).
  - now destruct (lookup_node (w_fs w) (dirname p)) as [[| g] |].
Qed.

(** [relpath] from the parent of the backup directory. *)
Lemma strip_common_prefix (root rel : path) :
  strip_common root (root ++ rel) = ([], rel).
Proof.
  induction root as [| c root IH]; simpl; [reflexivity |].
  now rewrite decide_True by reflexivity.
Qed.

Lemma relpath_under (root rel : path) :
  rel <> [] -> relpath (root ++ rel) root = rel.
Proof.
  intros Hrel. unfold relpath. rewrite strip_common_prefix. simpl.
  now destruct rel.
Qed.

Lemma backup_path_of_under (root rel : path) name :
  rel <> [] ->
  backup_path_of (root ++ rel) (root ++ [name]) = root ++ [name] ++ rel.
Proof.
  intros Hrel. unfold backup_path_of, join.
  now rewrite dirname_snoc, relpath_under, <- app_assoc.
Qed.

(** The two branches of [resize_to_pow2] on a file that decodes. *)
Lemma resize_to_pow2_pow2 w img_path backup_dir f im :
  decodes (w_fs w) img_path f im ->
  pow2_size (img_size im) = true ->
  resize_to_pow2 img_path backup_dir w =
    (opened img_path w, Ok (false, img_size im, img_size im)).
Proof.
  intros Hdec Hpow. unfold resize_to_pow2. rewrite bind_run.
  rewrite (Image_open_decodes _ _ _ _ Hdec).
  unfold pow2_size in Hpow. destruct (img_size im) as [wd ht]. simpl in Hpow.
  now rewrite Hpow.
Qed.

Lemma resize_to_pow2_npot w img_path backup_dir f im :
  decodes (w_fs w) img_path f im ->
  pow2_size (img_size im) = false ->
  resize_to_pow2 img_path backup_dir w =
    let backup_path := backup_path_of img_path backup_dir in
    match (makedirs (dirname backup_path);; copy2 img_path backup_path)
            (opened img_path w) with
    | (w1, Raise e) => (w1, Raise e)
    | (w1, Ok _) =>
        if img_truncated im then (w1, Raise TruncatedFileError)
        else
          match Image_save (stretched im) img_path "PNG" w1 with
          | (w2, Ok _) => (w2, Ok (true, img_size im, img_size (stretched im)))
          | (w2, Raise e) => (w2, Raise e)
          end
    end.
Proof.
  intros Hdec Hpow. unfold resize_to_pow2. rewrite bind_run.
  rewrite (Image_open_decodes _ _ _ _ Hdec).
  unfold pow2_size in Hpow. unfold stretched, rgba_data.
  destruct im as [mode [wd ht] data truncated]. simpl in *.
  rewrite Hpow. cbv zeta. rewrite !bind_run.
  destruct (makedirs _ _) as [wm [[] | e]]; [| reflexivity].
  rewrite !bind_run.
  destruct (copy2 _ _ _) as [w1 [[] | e]]; [| reflexivity].
  rewrite bind_run.
  destruct (String.eqb_spec mode "RGBA") as [-> | Hmode]; simpl;
    unfold Image_resize, Image_convert, Image_load; simpl;
    destruct truncated; simpl; try reflexivity;
    rewrite !bind_run; simpl;
    destruct (Image_save _ _ _ _) as [w2 [[] | e]]; reflexivity.
Qed.


Lemma only_mkdirs_lookup_node d w w' q :
  only_mkdirs d w w' ->
  lookup_node (w_fs w') q = lookup_node (w_fs w) q
  \/ (lookup_node (w_fs w) q = None /\ lookup_node (w_fs w') q = Some Dir
      /\ q `prefix_of` d).
Proof.
  intros (_ & _ & Hfs). destruct q as [| c q]; [now left |]. apply Hfs.
Qed.

Lemma only_mkdirs_keeps_file d w w' q g :
  only_mkdirs d w w' ->
  lookup_node (w_fs w) q = Some (File g) ->
  lookup_node (w_fs w') q = Some (File g).
Proof.
  intros H Hq. destruct (only_mkdirs_lookup_node d w w' q H) as [E | (N & _)];
    congruence.
Qed.

Lemma not_prefix_dirname (p : path) : p <> [] -> ¬ p `prefix_of` dirname p.
Proof.
  intros Hp. destruct (exists_last Hp) as (h & c & ->).
  rewrite dirname_snoc. apply not_prefix_snoc.
Qed.

Lemma decodes_lookup fs p f im : decodes fs p f im -> lookup_node fs p = Some (File f).
Proof. now intros [H _]. Qed.

Lemma decodes_opened p w q f im :
  decodes (w_fs w) q f im -> decodes (w_fs (opened p w)) q f im.
Proof. exact id. Qed.

(** The backup step of [resize_to_pow2] when nothing is in its way. *)
Lemma backup_ok w img_path backup_dir f :
  lookup_node (w_fs w) img_path = Some (File f) ->
  backup_possible (w_fs w) img_path backup_dir = true ->
  let backup_path := backup_path_of img_path backup_dir in
  exists wm,
    only_mkdirs (dirname backup_path) w wm
    /\ isdir (w_fs wm) (dirname backup_path) = true
    /\ img_path <> backup_path
    /\ (makedirs (dirname backup_path);; copy2 img_path backup_path) w =
       (World (<[backup_path := File f]> (w_fs wm)) (w_clock wm + 1)
              (w_log wm ++ [EvCopy img_path backup_path]) (w_out wm), Ok tt).
Proof.
  intros Hsrc Hposs bp. unfold backup_possible in Hposs. fold bp in Hposs.
  apply andb_true_iff in Hposs as [Hposs Hslot].
  apply andb_true_iff in Hposs as [Hne Hdirs].
  apply negb_true_iff, bool_decide_eq_false in Hne.
  destruct (makedirs_ok _ _ Hdirs) as (wm & Hrun & Hdir & Hframe).
  exists wm. repeat (split; [assumption |]).
  rewrite bind_run, Hrun. apply copy2_ok; try assumption.
  - now apply (only_mkdirs_keeps_file _ _ _ _ _ Hframe).
  - unfold writable_slot in *.
    destruct (only_mkdirs_lookup_node _ _ _ bp Hframe) as [-> | (N & _ & P)];
      [assumption |].
    destruct (not_prefix_dirname bp); [| assumption].
    intros E. now rewrite E in N.
Qed.

Lemma lookup_node_insert_ne fs (k q : path) v :
  k <> q -> lookup_node (<[k := v]> fs) q = lookup_node fs q.
Proof. intros Hne. destruct q; [reflexivity |]. simpl. now apply lookup_insert_ne. Qed.

Lemma lookup_node_insert_file fs (k : path) g :
  lookup_node fs k = Some (File g) -> forall v, lookup_node (<[k := v]> fs) k = Some v.
Proof. intros Hk v. destruct k; [discriminate |]. simpl. apply lookup_insert_eq. Qed.

(** The whole run on a file that needs resizing and whose backup can be
    written: directories, copy, then either a failure that leaves the
    original in place or the overwrite. *)
Lemma npot_run w img_path backup_dir f im :
  decodes (w_fs w) img_path f im ->
  pow2_size (img_size im) = false ->
  backup_possible (w_fs w) img_path backup_dir = true ->
  let backup_path := backup_path_of img_path backup_dir in
  exists wm ds,
    only_mkdirs (dirname backup_path) (opened img_path w) wm
    /\ w_log wm = w_log w ++ [EvOpen img_path] ++ map EvMkdir ds
    /\ isdir (w_fs wm) (dirname backup_path) = true
    /\ img_path <> backup_path
    /\ lookup_node (w_fs wm) img_path = Some (File f)
    /\ let w1 := World (<[backup_path := File f]> (w_fs wm)) (w_clock wm + 1)
                       (w_log wm ++ [EvCopy img_path backup_path]) (w_out wm) in
       resize_to_pow2 img_path backup_dir w =
         if img_truncated im then (w1, Raise TruncatedFileError)
         else if f_readonly f then (w1, Raise (PermissionError img_path))
         else
           (World (<[img_path := File (File_ (Encoded "PNG" (stretched im))
                                             (w_clock w1) false)]> (w_fs w1))
                  (w_clock w1 + 1) (w_log w1 ++ [EvSave img_path]) (w_out w1),
            Ok (true, img_size im, img_size (stretched im))).
Proof.
  intros Hdec Hpow Hposs bp.
  pose proof (decodes_lookup _ _ _ _ Hdec) as Hsrc.
  destruct (backup_ok (opened img_path w) img_path backup_dir f Hsrc Hposs)
    as (wm & Hframe & Hdir & Hne & Hrun).
  fold bp in Hframe, Hdir, Hne, Hrun.
  pose proof (only_mkdirs_keeps_file _ _ _ _ _ Hframe Hsrc) as Hm.
  pose proof Hframe as (Hout & [ds Hlog] & Hfs).
  exists wm, ds. split; [exact Hframe |].
  split; [rewrite Hlog; simpl; now rewrite <- app_assoc |].
  repeat (split; [assumption |]).
  rewrite (resize_to_pow2_npot w _ _ f im Hdec Hpow). cbv zeta. fold bp.
  rewrite Hrun. destruct (img_truncated im); [reflexivity |].
  rewrite Image_save_run. cbn [w_fs w_clock w_log w_out].
  rewrite lookup_node_insert_ne, Hm by congruence.
  now destruct (f_readonly f).
Qed.

Lemma isdir_insert_ne fs (k q : path) v :
  k <> q -> isdir (<[k := v]> fs) q = isdir fs q.
Proof. intros Hne. unfold isdir. now rewrite lookup_node_insert_ne. Qed.

Lemma isdir_insert_leaf fs (p : path) v :
  isdir fs (dirname p) = true -> isdir (<[p := v]> fs) (dirname p) = true.
Proof.
  intros Hdir. destruct (decide (p = dirname p)) as [E | Hne].
  - destruct p as [| c p]; [reflexivity |].
    destruct (not_prefix_dirname (c :: p)); [discriminate |]. now rewrite <- E.
  - now rewrite isdir_insert_ne.
Qed.

(** The same run, by what it leaves behind. *)
Lemma npot_outcome w img_path backup_dir f im :
  decodes (w_fs w) img_path f im ->
  pow2_size (img_size im) = false ->
  backup_possible (w_fs w) img_path backup_dir = true ->
  let backup_path := backup_path_of img_path backup_dir in
  exists w' r ds tail,
    resize_to_pow2 img_path backup_dir w = (w', r)
    /\ w_log w' = w_log w ++ [EvOpen img_path] ++ map EvMkdir ds
                          ++ [EvCopy img_path backup_path] ++ tail
    /\ img_path <> backup_path
    /\ w_fs w' !! backup_path = Some (File f)
    /\ isdir (w_fs w') (dirname backup_path) = true
    /\ ((tail = [] /\ lookup_node (w_fs w') img_path = Some (File f)
         /\ exists e, r = Raise e)
        \/ (tail = [EvSave img_path]
            /\ r = Ok (true, img_size im, img_size (stretched im)))).
Proof.
  intros Hdec Hpow Hposs bp.
  destruct (npot_run w _ _ f im Hdec Hpow Hposs)
    as (wm & ds & _ & Hlog & Hdir & Hne & Hm & Hrun).
  fold bp in Hdir, Hne, Hrun. cbv zeta in Hrun. rewrite Hrun. clear Hrun.
  assert (Hne' : img_path <> dirname bp).
  { intros E. apply isdir_lookup in Hdir. congruence. }
  destruct (img_truncated im); [| destruct (f_readonly f)];
    eexists _, _, ds, _; (split; [reflexivity |]); cbn [w_log w_fs];
    rewrite Hlog, <- ?app_assoc.
  - split; [reflexivity |]. split; [assumption |].
    split; [apply lookup_insert_eq |]. split; [now apply isdir_insert_leaf |].
    left. split; [reflexivity |].
    split; [now rewrite lookup_node_insert_ne by congruence | now eexists].
  - split; [reflexivity |]. split; [assumption |].
    split; [apply lookup_insert_eq |]. split; [now apply isdir_insert_leaf |].
    left. split; [reflexivity |].
    split; [now rewrite lookup_node_insert_ne by congruence | now eexists].
  - split; [reflexivity |]. split; [assumption |].
    split; [rewrite lookup_insert_ne by congruence; apply lookup_insert_eq |].
    split; [rewrite isdir_insert_ne by assumption; now apply isdir_insert_leaf |].
    right. split; reflexivity.
Qed.

(** Whatever happens in a run on a file that needs resizing, also when the
    backup fails: either the original is still in place, or it was
    overwritten after a copy of it had been written. *)
Lemma original_kept_or_copied w img_path backup_dir f im :
  decodes (w_fs w) img_path f im ->
  pow2_size (img_size im) = false ->
  lookup_node (w_fs (resize_to_pow2 img_path backup_dir w).1) img_path
    = Some (File f)
  \/ exists dst ds,
       w_fs (resize_to_pow2 img_path backup_dir w).1 !! dst = Some (File f)
       /\ w_log (resize_to_pow2 img_path backup_dir w).1
          = w_log w ++ [EvOpen img_path] ++ map EvMkdir ds
                    ++ [EvCopy img_path dst; EvSave img_path].
Proof.
  intros Hdec Hpow. pose proof (decodes_lookup _ _ _ _ Hdec) as Hsrc.
  rewrite (resize_to_pow2_npot w _ _ f im Hdec Hpow). cbv zeta.
  set (bp := backup_path_of img_path backup_dir). rewrite bind_run.
  pose proof (makedirs_only_mkdirs (dirname bp) (opened img_path w)) as Hframe.
  destruct (makedirs (dirname bp) (opened img_path w)) as [wm [[] | e]];
    simpl in Hframe;
    pose proof (only_mkdirs_keeps_file _ _ _ _ _ Hframe Hsrc) as Hm;
    [| now left].
  pose proof (copy2_run img_path bp wm) as Hcopy.
  destruct (copy2 img_path bp wm) as [w1 [[] | e]];
    specialize (Hcopy _ _ eq_refl); cbv beta iota in Hcopy;
    [| subst w1; now left].
  destruct Hcopy as (f' & dst & Hf' & Hne & _ & ->).
  assert (f' = f) as -> by congruence.
  destruct (img_truncated im).
  { left. cbn [fst w_fs]. now rewrite lookup_node_insert_ne by congruence. }
  rewrite Image_save_run. cbn [w_fs w_clock w_log w_out].
  rewrite lookup_node_insert_ne, Hm by congruence.
  destruct (f_readonly f).
  { left. cbn [fst w_fs]. now rewrite lookup_node_insert_ne by congruence. }
  right. destruct Hframe as (_ & [ds Hlog] & _). exists dst, ds.
  cbn [fst w_fs w_log]. split.
  - rewrite lookup_insert_ne by congruence. apply lookup_insert_eq.
  - rewrite Hlog. cbn [opened w_log]. now rewrite <- !app_assoc.
Qed.

(** C8: on a file whose width and height are powers of two already the
    transformer answers "unchanged" with the original size twice, and leaves
    the file system, the clock and the output as they were: the only event is
    the read of the file, no directory is made and no copy is written.  A
    second run finds the same file and does the same. *)
Theorem pow2_file_unchanged w img_path backup_dir f im wd ht :
  decodes (w_fs w) img_path f im ->
  img_size im = (wd, ht) ->
  is_pow2 wd = true -> is_pow2 ht = true ->
  exists w1 w2,
    resize_to_pow2 img_path backup_dir w = (w1, Ok (false, (wd, ht), (wd, ht)))
    /\ w_fs w1 = w_fs w /\ w_clock w1 = w_clock w /\ w_out w1 = w_out w
    /\ w_log w1 = w_log w ++ [EvOpen img_path]
    /\ resize_to_pow2 img_path backup_dir w1 = (w2, Ok (false, (wd, ht), (wd, ht)))
    /\ w_fs w2 = w_fs w /\ w_clock w2 = w_clock w /\ w_out w2 = w_out w
    /\ w_log w2 = w_log w ++ [EvOpen img_path; EvOpen img_path].
Proof.
  intros Hdec Hsize Hw Hh.
  assert (Hpow : pow2_size (img_size im) = true)
    by (unfold pow2_size; rewrite Hsize; simpl; now rewrite Hw, Hh).
  exists (opened img_path w), (opened img_path (opened img_path w)).
  rewrite <- Hsize.
  rewrite (resize_to_pow2_pow2 w _ _ f im Hdec Hpow).
  rewrite (resize_to_pow2_pow2 (opened img_path w) _ _ f im
             (decodes_opened _ _ _ _ _ Hdec) Hpow).
  simpl. rewrite <- app_assoc. repeat split.
Qed.

(** C2: a file that decodes to a w x h image with w or h not a power of two,
    whose pixel data loads, that is not read-only and whose backup can be
    written, is overwritten by one run with a PNG-encoded RGBA image of size
    exactly (next_pow2 w, next_pow2 h), the LANCZOS resampling of the (RGBA
    converted) original; the run returns "resized" with both size pairs. *)
Theorem npot_file_resized w img_path backup_dir f im wd ht :
  decodes (w_fs w) img_path f im ->
  img_size im = (wd, ht) ->
  is_pow2 wd = false \/ is_pow2 ht = false ->
  img_truncated im = false ->
  f_readonly f = false ->
  backup_possible (w_fs w) img_path backup_dir = true ->
  exists w' saved mtime,
    resize_to_pow2 img_path backup_dir w =
      (w', Ok (true, (wd, ht), (next_pow2 wd, next_pow2 ht)))
    /\ w_fs w' !! img_path = Some (File (File_ (Encoded "PNG" saved) mtime false))
    /\ img_size saved = (next_pow2 wd, next_pow2 ht)
    /\ img_mode saved = "RGBA"
    /\ img_data saved =
         Resampled "LANCZOS" (next_pow2 wd, next_pow2 ht) (rgba_data im)
    /\ EvSave img_path ∈ w_log w'.
Proof.
  intros Hdec Hsize Hnpot Htrunc Hro Hposs.
  assert (Hpow : pow2_size (img_size im) = false).
  { unfold pow2_size. rewrite Hsize. simpl. apply andb_false_iff. exact Hnpot. }
  pose proof (decodes_lookup _ _ _ _ Hdec) as Hsrc.
  destruct (backup_ok (opened img_path w) img_path backup_dir f Hsrc Hposs)
    as (wm & Hframe & Hdir & Hne & Hrun).
  rewrite (resize_to_pow2_npot w _ _ f im Hdec Hpow). cbv zeta.
  rewrite Hrun, Htrunc, Image_save_run. cbn [w_fs w_clock w_log w_out].
  assert (Himg : lookup_node (<[backup_path_of img_path backup_dir := File f]> (w_fs wm))
                   img_path = Some (File f)).
  { pose proof (only_mkdirs_keeps_file _ _ _ _ _ Hframe Hsrc) as Hm.
    destruct img_path; [discriminate |]. simpl in *.
    now rewrite lookup_insert_ne by congruence. }
  rewrite Himg, Hro. unfold stretched. rewrite Hsize. cbn [fst snd img_size].
  eexists _, _, _. split; [reflexivity |].
  cbn [w_fs w_log]. split; [apply lookup_insert_eq |].
  cbn [img_size img_mode img_data]. repeat split.
  apply elem_of_app. right. apply list_elem_of_singleton. reflexivity.
Qed.


(** C3: for a file that decodes, a copy is written only when its width or
    height is not a power of two; when both are, the file system is left as
    it was and the only event is the read; when one is not and the backup
    can be written, the copy is written, whatever happens afterwards. *)
Theorem backup_iff_npot w img_path backup_dir f im wd ht :
  decodes (w_fs w) img_path f im ->
  img_size im = (wd, ht) ->
  backup_possible (w_fs w) img_path backup_dir = true ->
  exists w' r evs,
    resize_to_pow2 img_path backup_dir w = (w', r)
    /\ w_log w' = w_log w ++ evs
    /\ ((exists dst, EvCopy img_path dst ∈ evs)
        <-> (is_pow2 wd = false \/ is_pow2 ht = false))
    /\ (is_pow2 wd = false \/ is_pow2 ht = false ->
        EvCopy img_path (backup_path_of img_path backup_dir) ∈ evs
        /\ w_fs w' !! backup_path_of img_path backup_dir = Some (File f))
    /\ (is_pow2 wd = true /\ is_pow2 ht = true ->
        w_fs w' = w_fs w /\ evs = [EvOpen img_path]
        /\ r = Ok (false, (wd, ht), (wd, ht))).
Proof.
  intros Hdec Hsize Hposs.
  destruct (pow2_size (img_size im)) eqn:Hpow.
  - (* both powers of two *)
    rewrite (resize_to_pow2_pow2 w _ _ f im Hdec Hpow).
    unfold pow2_size in Hpow. rewrite Hsize in *. simpl in Hpow.
    apply andb_true_iff in Hpow as [Hw Hh].
    eexists _, _, [EvOpen img_path]. split; [reflexivity |].
    split; [reflexivity |]. split; [| split].
    + split.
      * intros [dst Hin]. apply list_elem_of_singleton in Hin. discriminate.
      * intros [H | H]; congruence.
    + intros [H | H]; congruence.
    + intros _. repeat split.
  - (* one of them is not *)
    assert (Hnpot : is_pow2 wd = false \/ is_pow2 ht = false).
    { unfold pow2_size in Hpow. rewrite Hsize in Hpow. simpl in Hpow.
      now apply andb_false_iff. }
    destruct (npot_outcome w _ _ f im Hdec Hpow Hposs)
      as (w' & r & ds & tail & Hrun & Hlog & _ & Hfs & _).
    set (bp := backup_path_of img_path backup_dir) in *.
    exists w', r, ([EvOpen img_path] ++ map EvMkdir ds ++ [EvCopy img_path bp] ++ tail).
    split; [assumption |]. split; [assumption |].
    assert (Hin : EvCopy img_path bp ∈
              [EvOpen img_path] ++ map EvMkdir ds ++ [EvCopy img_path bp] ++ tail).
    { rewrite !elem_of_app. right. right. left.
      apply list_elem_of_singleton. reflexivity. }
    split; [| split].
    + split; [intros _; exact Hnpot | intros _; now exists bp].
    + intros _. split; assumption.
    + intros [Hw Hh]. destruct Hnpot; congruence.
Qed.


(** C4, as the code has it: for a file root/rel that needs resizing, with the
    backup directory root/name.  When the backup can be written, the original
    is copied, content and modification time and permission bit, to
    root/name/rel (its path relative to the parent of the backup directory,
    put below the backup directory); the directories above the copy exist
    afterwards; the only events before the copy are the read and the
    creation of directories; the overwrite of the original can only follow
    the copy, and if it did not happen the original is still in place.
    Whether or not the backup can be written, the original is either still
    in place after the run or was overwritten after a copy of it had been
    written. *)
Theorem backup_copy_precedes_overwrite w root name rel f im wd ht :
  rel <> [] ->
  decodes (w_fs w) (root ++ rel) f im ->
  img_size im = (wd, ht) ->
  is_pow2 wd = false \/ is_pow2 ht = false ->
  exists w' r,
    resize_to_pow2 (root ++ rel) (root ++ [name]) w = (w', r)
    /\ (backup_possible (w_fs w) (root ++ rel) (root ++ [name]) = true ->
        exists ds tail g,
          w_log w' = w_log w ++ [EvOpen (root ++ rel)] ++ map EvMkdir ds
                       ++ [EvCopy (root ++ rel) (root ++ [name] ++ rel)] ++ tail
          /\ ((tail = [] /\ lookup_node (w_fs w') (root ++ rel) = Some (File f))
              \/ tail = [EvSave (root ++ rel)])
          /\ w_fs w' !! (root ++ [name] ++ rel) = Some (File g)
          /\ f_content g = f_content f /\ f_mtime g = f_mtime f
          /\ f_readonly g = f_readonly f
          /\ isdir (w_fs w') (dirname (root ++ [name] ++ rel)) = true)
    /\ (lookup_node (w_fs w') (root ++ rel) = Some (File f)
        \/ exists dst ds,
             w_fs w' !! dst = Some (File f)
             /\ w_log w' = w_log w ++ [EvOpen (root ++ rel)] ++ map EvMkdir ds
                             ++ [EvCopy (root ++ rel) dst; EvSave (root ++ rel)]).
Proof.
  intros Hrel Hdec Hsize Hnpot.
  assert (Hpow : pow2_size (img_size im) = false).
  { unfold pow2_size. rewrite Hsize. simpl. now apply andb_false_iff. }
  pose proof (original_kept_or_copied w _ (root ++ [name]) f im Hdec Hpow) as Hkept.
  destruct (resize_to_pow2 (root ++ rel) (root ++ [name]) w) as [w' r] eqn:Hrun.
  exists w', r. split; [reflexivity |]. split; [| exact Hkept].
  intros Hposs.
  destruct (npot_outcome w _ _ f im Hdec Hpow Hposs)
    as (w'' & r'' & ds & tail & Hrun' & Hlog & _ & Hfs & Hdir & Htail).
  rewrite Hrun in Hrun'. injection Hrun' as <- <-.
  rewrite (backup_path_of_under root rel name Hrel) in *.
  exists ds, tail, f. split; [assumption |].
  split; [| now repeat split].
  destruct Htail as [(-> & Horig & _) | [-> _]]; [left | right]; now repeat split.
Qed.

Lemma backup_copy_precedes_overwrite_witness :
  exists w' r,
    resize_to_pow2 (script_dir ++ ["assets"; "ui"; "a.png"])
                   (script_dir ++ ["backup_npot"]) world_mixed = (w', r)
    /\ w_fs w' !! (script_dir ++ ["backup_npot"] ++ ["assets"; "ui"; "a.png"])
       = Some (File file_a)
    /\ lookup_node (w_fs w') (script_dir ++ ["assets"; "ui"; "a.png"])
       <> Some (File file_a).
Proof.
  destruct (backup_copy_precedes_overwrite world_mixed script_dir "backup_npot"
              ["assets"; "ui"; "a.png"] file_a img_a 377 21)
    as (w' & r & Hrun & Hcopy & _).
  - discriminate.
  - split; [reflexivity | now exists "PNG"].
  - reflexivity.
  - left. reflexivity.
  - exists w', r. split; [exact Hrun |].
    destruct Hcopy as (ds & tail & g & _ & _ & Hg & Hc & Hm & Hro & _);
      [vm_compute; reflexivity |].
    vm_compute in Hrun. injection Hrun as <- <-. split.
    + rewrite Hg. destruct g as [c m ro]. simpl in Hc, Hm, Hro. now subst.
    + vm_compute. discriminate.
Defined.

(** C4, as the specification words it, fails: the copy of assets/ui/a.png is
    not at backup_npot/ui/a.png, the file's path relative to the assets
    directory put below the backup directory; it is at
    backup_npot/assets/ui/a.png. *)
Lemma backup_not_at_asset_relative_path :
  (relative_to a_png assets_dir world_mixed).2 = Ok ["ui"; "a.png"]
  /\ w_fs (resize_to_pow2 a_png backup_dir world_mixed).1
       !! (backup_dir ++ ["ui"; "a.png"]) = None
  /\ w_fs (resize_to_pow2 a_png backup_dir world_mixed).1
       !! (backup_dir ++ ["assets"; "ui"; "a.png"]) = Some (File file_a).
Proof. vm_compute. repeat split. Qed.

Lemma pow2_file_unchanged_witness :
  exists w1 w2,
    resize_to_pow2 b_png backup_dir world_mixed = (w1, Ok (false, (256, 256), (256, 256)))
    /\ w_fs w1 = w_fs world_mixed /\ w_clock w1 = w_clock world_mixed
    /\ w_out w1 = w_out world_mixed
    /\ w_log w1 = w_log world_mixed ++ [EvOpen b_png]
    /\ resize_to_pow2 b_png backup_dir w1 = (w2, Ok (false, (256, 256), (256, 256)))
    /\ w_fs w2 = w_fs world_mixed /\ w_clock w2 = w_clock world_mixed
    /\ w_out w2 = w_out world_mixed
    /\ w_log w2 = w_log world_mixed ++ [EvOpen b_png; EvOpen b_png].
Proof.
  apply (pow2_file_unchanged world_mixed b_png backup_dir file_b img_b 256 256).
  - split; [reflexivity | now exists "PNG"].
  - reflexivity.
  - reflexivity.
  - reflexivity.
Defined.

Lemma npot_file_resized_witness :
  exists w' saved mtime,
    resize_to_pow2 a_png backup_dir world_mixed =
      (w', Ok (true, (377, 21), (next_pow2 377, next_pow2 21)))
    /\ w_fs w' !! a_png = Some (File (File_ (Encoded "PNG" saved) mtime false))
    /\ img_size saved = (next_pow2 377, next_pow2 21)
    /\ img_mode saved = "RGBA"
    /\ img_data saved =
         Resampled "LANCZOS" (next_pow2 377, next_pow2 21) (rgba_data img_a)
    /\ EvSave a_png ∈ w_log w'.
Proof.
  apply (npot_file_resized world_mixed a_png backup_dir file_a img_a 377 21).
  - split; [reflexivity | now exists "PNG"].
  - reflexivity.
  - left. reflexivity.
  - reflexivity.
  - reflexivity.
  - vm_compute. reflexivity.
Defined.

Lemma backup_iff_npot_witness :
  exists w' r evs,
    resize_to_pow2 a_png backup_dir world_mixed = (w', r)
    /\ w_log w' = w_log world_mixed ++ evs
    /\ ((exists dst, EvCopy a_png dst ∈ evs)
        <-> (is_pow2 377 = false \/ is_pow2 21 = false))
    /\ (is_pow2 377 = false \/ is_pow2 21 = false ->
        EvCopy a_png (backup_path_of a_png backup_dir) ∈ evs
        /\ w_fs w' !! backup_path_of a_png backup_dir = Some (File file_a))
    /\ (is_pow2 377 = true /\ is_pow2 21 = true ->
        w_fs w' = w_fs world_mixed /\ evs = [EvOpen a_png]
        /\ r = Ok (false, (377, 21), (377, 21))).
Proof.
  apply (backup_iff_npot world_mixed a_png backup_dir file_a img_a 377 21).
  - split; [reflexivity | now exists "PNG"].
  - reflexivity.
  - vm_compute. reflexivity.
Defined.

End ResizerFacts.

(** ** Facts about the batch driver [main] *)

Module DriverFacts.
Import Classifier Env Resizer Props Examples EnvFacts ResizerFacts.

(** After its [Image.open], [resize_to_pow2] opens nothing else. *)
Lemma resize_to_pow2_opens img_path backup_dir w :
  reads_nothing (opened img_path w) (resize_to_pow2 img_path backup_dir w).1.
Proof.
  unfold resize_to_pow2. rewrite bind_run.
  pose proof (Image_open_world img_path w) as Hw.
  destruct (Image_open img_path w) as [w1 [im | e]]; simpl in Hw; subst w1;
    [| reflexivity].
  revert w. generalize (opened img_path). intros o w. generalize (o w). clear.
  change (preserves reads_nothing
    (let '(orig_width, orig_height) := img_size im in
     if is_pow2 orig_width && is_pow2 orig_height
     then mret (false, (orig_width, orig_height), (orig_width, orig_height))
     else
       let new_width := next_pow2 orig_width in
       let new_height := next_pow2 orig_height in
       let backup_path := backup_path_of img_path backup_dir in
       makedirs (dirname backup_path);;
       copy2 img_path backup_path;;
       img ← (if negb (String.eqb (img_mode im) "RGBA")
              then Image_convert im "RGBA" else mret im);
       new_img ← Image_resize img (new_width, new_height) "LANCZOS";
       Image_save new_img img_path "PNG";;
       mret (true, (orig_width, orig_height), (new_width, new_height)))).
  destruct (img_size im) as [wd ht]. preserves_step; [preserves_step |].
  cbv zeta. preserves_step; [apply makedirs_reads_nothing |].
  preserves_step; [apply copy2_reads_nothing |].
  preserves_step;
    [preserves_step; [apply Image_convert_reads_nothing | preserves_step] |].
  preserves_step; [apply Image_resize_reads_nothing |].
  preserves_step; [apply Image_save_reads_nothing | preserves_step].
Qed.

Lemma try_body_opens assets_dir backup_dir png_path s w :
  reads_nothing (opened png_path w) (try_body assets_dir backup_dir png_path s w).1.
Proof.
  unfold try_body. rewrite bind_run.
  pose proof (resize_to_pow2_opens png_path backup_dir w) as H.
  destruct (resize_to_pow2 png_path backup_dir w) as [w1 [[[was_resized o] n] | e]];
    simpl in H; [| exact H].
  etransitivity; [exact H |]. generalize w1. clear.
  change (preserves reads_nothing
    (rel_path ← relative_to png_path assets_dir;
     if (was_resized : bool) then
       print ("[RESIZED] " +:+ path_str rel_path +:+ ": "
              +:+ pretty (fst o) +:+ "x" +:+ pretty (snd o) +:+ " -> "
              +:+ pretty (fst n) +:+ "x" +:+ pretty (snd n));;
       mret (Summary (resized_count s + 1) (skipped_count s) (errors s))
     else
       mret (Summary (resized_count s) (skipped_count s + 1) (errors s)))).
  preserves_step; [apply relative_to_reads_nothing |].
  preserves_step; [| preserves_step].
  preserves_step; [apply print_reads_nothing | preserves_step].
Qed.


(** A turn that does not raise counts the file as resized or as skipped and
    records no error. *)
Lemma try_body_counts assets_dir backup_dir png_path s w w' s' :
  try_body assets_dir backup_dir png_path s w = (w', Ok s') ->
  errors s' = errors s
  /\ resized_count s' + skipped_count s' = resized_count s + skipped_count s + 1.
Proof.
  unfold try_body. rewrite bind_run.
  destruct (resize_to_pow2 png_path backup_dir w) as [w1 [[[was_resized o] n] | e]];
    [| discriminate].
  rewrite bind_run.
  destruct (relative_to png_path assets_dir w1) as [w2 [rel | e]]; [| discriminate].
  destruct was_resized.
  - rewrite bind_print. intros [= <- <-]. simpl. split; [reflexivity | lia].
  - intros [= <- <-]. simpl. split; [reflexivity | lia].
Qed.

(** The [try]/[except] of the driver: a turn that raises is turned into one
    error record and one output line, and the turn ends normally. *)
Lemma process_file_run assets_dir backup_dir png_path s w :
  process_file assets_dir backup_dir png_path s w =
  match try_body assets_dir backup_dir png_path s w with
  | (w1, Ok s1) => (w1, Ok s1)
  | (w1, Raise e) =>
      (reported png_path e w1,
       Ok (Summary (resized_count s) (skipped_count s)
                   (errors s ++ [(png_path, str e)])))
  end.
Proof. reflexivity. Qed.

Lemma resize_raise_try_body assets_dir backup_dir png_path s w w1 e :
  resize_to_pow2 png_path backup_dir w = (w1, Raise e) ->
  try_body assets_dir backup_dir png_path s w = (w1, Raise e).
Proof. intros H. unfold try_body. now rewrite bind_run, H. Qed.

Lemma main_loop_app assets_dir backup_dir pre : forall post s w,
  main_loop assets_dir backup_dir (pre ++ post) s w =
  match main_loop assets_dir backup_dir pre s w with
  | (w1, Ok s1) => main_loop assets_dir backup_dir post s1 w1
  | (w1, Raise e) => (w1, Raise e)
  end.
Proof.
  induction pre as [| p pre IH]; intros post s w; [reflexivity |].
  simpl. rewrite !bind_run.
  destruct (process_file assets_dir backup_dir p s w) as [w1 [s1 | e]];
    [apply IH | reflexivity].
Qed.

(** The loop never raises; it opens every file once, in order; every file
    ends up counted as resized, as skipped or as an error. *)
Lemma main_loop_total assets_dir backup_dir files : forall s w,
  exists w' s' evs errs,
    main_loop assets_dir backup_dir files s w = (w', Ok s')
    /\ w_log w' = w_log w ++ evs /\ opens evs = files
    /\ errors s' = errors s ++ errs
    /\ resized_count s' + skipped_count s' + Z.of_nat (length errs)
       = resized_count s + skipped_count s + Z.of_nat (length files)
    /\ (length errs <= length files)%nat.
Proof.
  induction files as [| p files IH]; intros s w.
  - exists w, s, [], []. simpl. rewrite !app_nil_r. repeat split; lia.
  - cbn [main_loop]. rewrite bind_run, process_file_run.
    pose proof (try_body_opens assets_dir backup_dir p s w) as (evs1 & Hlog1 & Hop1).
    pose proof (try_body_counts assets_dir backup_dir p s w) as Hcount.
    destruct (try_body assets_dir backup_dir p s w) as [w1 [s1 | e]]; simpl in Hlog1.
    + destruct (Hcount w1 s1 eq_refl) as [Herr Hsum].
      destruct (IH s1 w1)
        as (w' & s' & evs & errs & Hrun & Hlog & Hop & Herrs & Hn & Hle).
      exists w', s', ([EvOpen p] ++ evs1 ++ evs), errs.
      split; [assumption |].
      split; [rewrite Hlog, Hlog1; now rewrite <- !app_assoc |].
      split; [rewrite !opens_app, Hop1, Hop; reflexivity |].
      split; [congruence |]. cbn [length]. lia.
    + destruct (IH (Summary (resized_count s) (skipped_count s)
                            (errors s ++ [(p, str e)])) (reported p e w1))
        as (w' & s' & evs & errs & Hrun & Hlog & Hop & Herrs & Hn & Hle).
      exists w', s', ([EvOpen p] ++ evs1 ++ evs), ((p, str e) :: errs).
      split; [assumption |].
      split; [rewrite Hlog; cbn [reported w_log]; rewrite Hlog1;
              now rewrite <- !app_assoc |].
      split; [rewrite !opens_app, Hop1, Hop; reflexivity |].
      split; [rewrite Herrs; cbn [errors]; now rewrite <- app_assoc |].
      cbn [resized_count skipped_count] in Hn. cbn [length]. lia.
Qed.

(** C6: while the batch is processed, an exception raised by the work on one
    file is caught by the driver: it is recorded once, as the pair of the
    file's path and the exception's message, after the errors recorded
    before; one line reports it; the loop goes on with the files that follow
    and ends normally.  Over the whole batch every file is opened exactly
    once, in order (a failed file is not tried again), and each file is
    counted exactly once, as resized, skipped or in error. *)
Theorem driver_catches_errors assets_dir backup_dir pre p post s w :
  exists w1 s1,
    main_loop assets_dir backup_dir pre s w = (w1, Ok s1)
    /\ (forall w2 e,
          resize_to_pow2 p backup_dir w1 = (w2, Raise e) ->
          exists w' s' later,
            main_loop assets_dir backup_dir (pre ++ p :: post) s w = (w', Ok s')
            /\ main_loop assets_dir backup_dir post
                 (Summary (resized_count s1) (skipped_count s1)
                          (errors s1 ++ [(p, str e)]))
                 (reported p e w2) = (w', Ok s')
            /\ errors s' = errors s1 ++ [(p, str e)] ++ later
            /\ (length later <= length post)%nat)
    /\ (exists w' s' evs errs,
          main_loop assets_dir backup_dir (pre ++ p :: post) s w = (w', Ok s')
          /\ w_log w' = w_log w ++ evs
          /\ opens evs = pre ++ p :: post
          /\ errors s' = errors s ++ errs
          /\ resized_count s' + skipped_count s' + Z.of_nat (length errs)
             = resized_count s + skipped_count s
               + Z.of_nat (length (pre ++ p :: post))).
Proof.
  destruct (main_loop_total assets_dir backup_dir pre s w)
    as (w1 & s1 & _ & _ & Hpre & _).
  exists w1, s1. split; [assumption |]. split.
  - intros w2 e Hraise.
    apply (resize_raise_try_body assets_dir _ _ s1) in Hraise.
    destruct (main_loop_total assets_dir backup_dir post
                (Summary (resized_count s1) (skipped_count s1)
                         (errors s1 ++ [(p, str e)])) (reported p e w2))
      as (w' & s' & evs & later & Hpost & _ & _ & Herrs & _ & Hle).
    exists w', s', later.
    rewrite main_loop_app, Hpre. cbn [main_loop].
    rewrite bind_run, process_file_run, Hraise.
    split; [assumption |]. split; [assumption |].
    split; [rewrite Herrs; cbn [errors]; now rewrite <- app_assoc |].
    exact Hle.
  - destruct (main_loop_total assets_dir backup_dir (pre ++ p :: post) s w)
      as (w' & s' & evs & errs & Hrun & Hlog & Hop & Herrs & Hn & _).
    now exists w', s', evs, errs.
Qed.


Lemma driver_catches_errors_witness :
  exists w' s' later,
    main_loop assets_dir backup_dir ([] ++ c_png :: [b_png]) (Summary 0 0 [])
      world_mixed = (w', Ok s')
    /\ main_loop assets_dir backup_dir [b_png]
         (Summary 0 0 ([] ++ [(c_png, str (UnidentifiedImageError c_png))]))
         (reported c_png (UnidentifiedImageError c_png) (opened c_png world_mixed))
       = (w', Ok s')
    /\ errors s' = [] ++ [(c_png, str (UnidentifiedImageError c_png))] ++ later
    /\ (length later <= length [b_png])%nat.
Proof.
  destruct (driver_catches_errors assets_dir backup_dir [] c_png [b_png]
              (Summary 0 0 []) world_mixed) as (w1 & s1 & Hpre & Hcatch & _).
  injection Hpre as <- <-.
  apply (Hcatch (opened c_png world_mixed) (UnidentifiedImageError c_png)).
  reflexivity.
Defined.

(** C7: when the assets directory does not exist, [main] prints the error
    line and exits with status 1; the file system, the clock and the event
    log are as before: no directory was made, no file was read or written. *)
Theorem missing_assets_is_fatal script w :
  path_exists (w_fs w) (script ++ ["assets"]) = false ->
  exists w',
    main script w = (w', Exit 1)
    /\ w_out w' = w_out w ++ ["ERROR: Assets directory not found: "
                              +:+ path_str (script ++ ["assets"])]
    /\ w_fs w' = w_fs w /\ w_log w' = w_log w /\ w_clock w' = w_clock w
    /\ w_fs w' !! (script ++ ["backup_npot"]) = w_fs w !! (script ++ ["backup_npot"]).
Proof.
  intros Hmissing. unfold main. rewrite Hmissing. simpl.
  eexists. repeat split.
Qed.

Lemma missing_assets_is_fatal_witness :
  exists w',
    main script_dir world_no_assets = (w', Exit 1)
    /\ w_out w' = w_out world_no_assets
         ++ ["ERROR: Assets directory not found: "
             +:+ path_str (script_dir ++ ["assets"])]
    /\ w_fs w' = w_fs world_no_assets /\ w_log w' = w_log world_no_assets
    /\ w_clock w' = w_clock world_no_assets
    /\ w_fs w' !! (script_dir ++ ["backup_npot"])
       = w_fs world_no_assets !! (script_dir ++ ["backup_npot"]).
Proof.
  apply (missing_assets_is_fatal script_dir world_no_assets). reflexivity.
Defined.

(** [Path.mkdir(exist_ok=True)] where nothing exists yet, below a
    directory. *)
Lemma Path_mkdir_fresh p w :
  w_fs w !! p = None ->
  isdir (w_fs w) (dirname p) = true ->
  p <> [] ->
  Path_mkdir_exist_ok p w =
    (World (<[p := Dir]> (w_fs w)) (w_clock w + 1) (w_log w ++ [EvMkdir p])
           (w_out w), Ok tt).
Proof.
  intros Hp Hparent Hne. apply isdir_lookup in Hparent.
  unfold Path_mkdir_exist_ok, os_mkdir. rewrite try_except_run, bind_get_fs.
  destruct p as [| c p]; [congruence |]. cbn [lookup_node] in *.
  now rewrite Hp, Hparent.
Qed.

Lemma print_summary_run backup_dir s w :
  exists lines,
    print_summary backup_dir s w =
      (World (w_fs w) (w_clock w) (w_log w) (w_out w ++ lines), Ok tt).
Proof.
  unfold print_summary. rewrite !bind_print. cbn [w_fs w_clock w_log w_out].
  destruct (0 <? resized_count s).
  - rewrite !bind_print. unfold print. cbn [w_fs w_clock w_log w_out].
    rewrite <- !app_assoc. eexists. reflexivity.
  - unfold print. cbn [w_fs w_clock w_log w_out].
    rewrite <- !app_assoc. eexists. reflexivity.
Qed.

(** What [rglob_png] lists. *)
Lemma rglob_png_In fs base p :
  In p (rglob_png fs base) <->
  is_Some (fs !! p) /\ base `prefix_of` p /\ p <> base
  /\ is_png_name (basename p) = true.
Proof.
  unfold rglob_png. rewrite filter_In, !andb_true_iff, negb_true_iff.
  rewrite bool_decide_eq_true, bool_decide_eq_false, in_map_iff.
  split.
  - intros [[[q n] [<- Hin]] [[Hpre Hne] Hpng]].
    apply list_elem_of_In, elem_of_map_to_list in Hin. simpl in *. eauto.
  - intros [[n Hn] (Hpre & Hne & Hpng)]. split; [| now repeat split].
    exists (p, n). split; [reflexivity |].
    now apply list_elem_of_In, elem_of_map_to_list.
Qed.

Lemma sibling_not_prefix (d : path) a b : a <> b -> ¬ (d ++ [a]) `prefix_of` (d ++ [b]).
Proof.
  intros Hne [k Hk]. rewrite <- app_assoc in Hk. apply app_inv_head in Hk.
  simpl in Hk. congruence.
Qed.

Lemma pow2_png_decodes fs p :
  pow2_png fs p = true ->
  exists f im, decodes fs p f im /\ pow2_size (img_size im) = true.
Proof.
  unfold pow2_png, decodes.
  destruct (lookup_node fs p) as [[| f] |]; try discriminate.
  destruct (f_content f) as [| format im] eqn:Hc; [discriminate |].
  intros H. exists f, im. split; [| assumption]. split; [reflexivity | now exists format].
Qed.

(** The loop over files that are all POW2 already: every file is read and
    counted as skipped, nothing else happens. *)
Lemma main_loop_all_pow2 assets_dir backup_dir files : forall s w,
  Forall (fun p => pow2_png (w_fs w) p = true /\ assets_dir `prefix_of` p) files ->
  main_loop assets_dir backup_dir files s w =
    (World (w_fs w) (w_clock w) (w_log w ++ map EvOpen files) (w_out w),
     Ok (Summary (resized_count s) (skipped_count s + Z.of_nat (length files))
                 (errors s))).
Proof.
  induction files as [| p files IH]; intros s w Hall.
  - simpl. rewrite app_nil_r, Z.add_0_r. now destruct w, s.
  - apply Forall_cons in Hall as [[Hp [rel ->]] Hall].
    destruct (pow2_png_decodes _ _ Hp) as (f & im & Hdec & Hpow).
    cbn [main_loop]. rewrite bind_run, process_file_run.
    unfold try_body. rewrite bind_run.
    rewrite (resize_to_pow2_pow2 w _ _ f im Hdec Hpow).
    rewrite bind_run, relative_to_under, ret_run.
    rewrite (IH _ (opened (assets_dir ++ rel) w) Hall).
    cbn [opened w_fs w_clock w_log w_out resized_count skipped_count errors map length].
    rewrite <- app_assoc.
    replace (skipped_count s + 1 + Z.of_nat (length files))
      with (skipped_count s + Z.of_nat (S (length files))) by lia.
    reflexivity.
Qed.


Lemma no_resize_needed_after_mkdir fs script :
  no_resize_needed fs (script ++ ["assets"]) = true ->
  Forall (fun p => pow2_png (<[script ++ ["backup_npot"] := Dir]> fs) p = true
                   /\ (script ++ ["assets"]) `prefix_of` p)
         (rglob_png (<[script ++ ["backup_npot"] := Dir]> fs) (script ++ ["assets"])).
Proof.
  intros Hall. unfold no_resize_needed in Hall. rewrite forallb_forall in Hall.
  apply List.Forall_forall. intros p Hin.
  apply rglob_png_In in Hin as (Hsome & Hpre & Hne & Hpng).
  assert (Hp : script ++ ["backup_npot"] <> p).
  { intros <-. now apply (sibling_not_prefix script "assets" "backup_npot"). }
  split; [| assumption].
  unfold pow2_png. rewrite lookup_node_insert_ne by assumption.
  apply Hall, rglob_png_In. rewrite lookup_insert_ne in Hsome by assumption.
  now repeat split.
Qed.

(** C5, as the code has it: when the assets directory exists, the first thing
    a run does is to create the backup directory (here: below the existing
    script directory, where nothing had that name), before any file is
    looked at; when no file needs resizing, the run ends normally with
    nothing resized and no error, and all it did to the file system is that
    empty backup directory: the other events are reads. *)
Theorem backup_dir_created_at_startup script w :
  path_exists (w_fs w) (script ++ ["assets"]) = true ->
  isdir (w_fs w) script = true ->
  w_fs w !! (script ++ ["backup_npot"]) = None ->
  exists w' s evs,
    main script w = (w', Done s)
    /\ w_log w' = w_log w ++ EvMkdir (script ++ ["backup_npot"]) :: evs
    /\ (no_resize_needed (w_fs w) (script ++ ["assets"]) = true ->
        w_fs w' = <[script ++ ["backup_npot"] := Dir]> (w_fs w)
        /\ resized_count s = 0 /\ errors s = []
        /\ Forall (fun ev => exists p, ev = EvOpen p) evs).
Proof.
  intros Hassets Hdir Hfresh. unfold main. rewrite Hassets. cbn [negb].
  unfold main_body. rewrite bind_run, Path_mkdir_fresh;
    [| assumption | now rewrite dirname_snoc | now destruct script].
  rewrite !bind_print, bind_get_fs, !bind_print. cbn [w_fs w_clock w_log w_out].
  set (b := script ++ ["backup_npot"]) in *.
  set (a := script ++ ["assets"]) in *.
  set (files := rglob_png _ a).
  match goal with |- context [(main_loop a b files _ ≫= _) ?w0] =>
    set (w1 := w0) end.
  destruct (main_loop_total a b files (Summary 0 0 []) w1)
    as (w2 & s2 & evs & errs & Hrun & Hlog & _).
  rewrite bind_run, Hrun, bind_run.
  destruct (print_summary_run b s2 w2) as [lines ->]. rewrite ret_run.
  exists (World (w_fs w2) (w_clock w2) (w_log w2) (w_out w2 ++ lines)), s2, evs.
  split; [reflexivity |]. cbn [w_fs w_log].
  split; [rewrite Hlog; subst w1; cbn [w_log]; now rewrite <- app_assoc |].
  intros Hnone.
  pose proof (no_resize_needed_after_mkdir _ _ Hnone) as Hall.
  rewrite (main_loop_all_pow2 a b files (Summary 0 0 []) w1 Hall) in Hrun.
  injection Hrun as <- <-. cbn [w_fs w_log resized_count errors] in *.
  apply app_inv_head in Hlog. subst evs.
  repeat split. apply List.Forall_forall. intros ev Hin.
  apply in_map_iff in Hin as (p & <- & _). now exists p.
Qed.

Lemma backup_dir_created_at_startup_witness :
  exists w' s evs,
    main script_dir world_all_pow2 = (w', Done s)
    /\ w_log w' = w_log world_all_pow2
                  ++ EvMkdir (script_dir ++ ["backup_npot"]) :: evs
    /\ (no_resize_needed (w_fs world_all_pow2) (script_dir ++ ["assets"]) = true ->
        w_fs w' = <[script_dir ++ ["backup_npot"] := Dir]> (w_fs world_all_pow2)
        /\ resized_count s = 0 /\ errors s = []
        /\ Forall (fun ev => exists p, ev = EvOpen p) evs).
Proof.
  apply (backup_dir_created_at_startup script_dir world_all_pow2).
  - reflexivity.
  - reflexivity.
  - reflexivity.
Defined.

(** C5, as the specification words it, fails: in a run over an assets directory whose
    only PNG is POW2 already, so that nothing is resized, the backup
    directory did not exist before and exists afterwards. *)
Lemma backup_dir_created_without_resize :
  no_resize_needed (w_fs world_all_pow2) assets_dir = true
  /\ w_fs world_all_pow2 !! backup_dir = None
  /\ (main script_dir world_all_pow2).2 = Done (Summary 0 1 [])
  /\ w_fs (main script_dir world_all_pow2).1 !! backup_dir = Some Dir
  /\ EvMkdir backup_dir ∈ w_log (main script_dir world_all_pow2).1.
Proof.
  vm_compute. repeat split. apply list_elem_of_here.
Qed.


(** The mixed batch of the specification: [ui/a.png] (377 x 21) is resized
    to 512 x 32 and backed up, [b.png] (256 x 256) is left alone and not
    backed up, [c.png] is one error. *)
Example mixed_batch :
  (main script_dir world_mixed).2
    = Done (Summary 1 1 [(c_png, str (UnidentifiedImageError c_png))])
  /\ w_fs (main script_dir world_mixed).1 !! (backup_dir ++ ["assets"; "ui"; "a.png"])
     = Some (File file_a)
  /\ w_fs (main script_dir world_mixed).1 !! (backup_dir ++ ["assets"; "b.png"]) = None
  /\ w_fs (main script_dir world_mixed).1 !! b_png = Some (File file_b)
  /\ w_fs (main script_dir world_mixed).1 !! a_png
     = Some (File (File_ (Encoded "PNG" (stretched img_a)) 104 false))
  /\ img_size (stretched img_a) = (512, 32).
Proof. vm_compute. repeat split. Qed.

End DriverFacts.

(** ** More about the classifier *)

Module ClassifierLaws.
Import Classifier ClassifierFacts.

Lemma pow2_double j : 0 <= j -> 2 ^ j * 2 = 2 ^ (j + 1).
Proof. intros Hj. rewrite Z.pow_add_r by lia. lia. Qed.

(** From [p = 2 ^ j] the loop doubles exactly until the exponent reaches
    [Z.log2_up n]. *)
Lemma loop_run_from_pow2 n (d : nat) : forall j,
  0 <= j -> j <= Z.log2_up n -> d = Z.to_nat (Z.log2_up n - j) ->
  loop_run n (2 ^ j) d (2 ^ Z.log2_up n).
Proof.
  induction d as [| d IH]; intros j Hj Hle Hd.
  - replace j with (Z.log2_up n) by lia. apply loop_exit.
    pose proof (le_pow2_log2_up n). lia.
  - assert (Hlt : j < Z.log2_up n) by lia.
    apply loop_iter.
    + apply Z.log2_up_lt_pow2; [| assumption].
      destruct (Z.le_gt_cases n 1) as [H1 | H1]; [| lia].
      rewrite Z.log2_up_eqn0 in Hlt by assumption. lia.
    + rewrite pow2_double by assumption. apply IH; lia.
Qed.

(** X1: the result is less than twice the argument: a dimension is never
    stretched by a factor of two or more. *)
Theorem next_pow2_lt_double n : 1 <= n -> next_pow2 n < 2 * n.
Proof.
  intros Hn. rewrite next_pow2_closed_form.
  destruct (Z.eq_dec n 1) as [-> | Hne]; [reflexivity |].
  destruct (Z.log2_up_spec n) as [Hlo _]; [lia |].
  pose proof (Z.log2_up_pos n) as Hpos.
  replace (Z.log2_up n) with (Z.pred (Z.log2_up n) + 1) by lia.
  rewrite <- pow2_double by lia. lia.
Qed.

Lemma next_pow2_lt_double_witness : next_pow2 377 < 2 * 377.
Proof. apply (next_pow2_lt_double 377). lia. Defined.

(** X2: [next_pow2] is monotone, on all integers. *)
Theorem next_pow2_monotone n m : n <= m -> next_pow2 n <= next_pow2 m.
Proof.
  intros Hle. rewrite !next_pow2_closed_form.
  apply Z.pow_le_mono_r; [lia |]. now apply Z.log2_up_le_mono.
Qed.

Lemma next_pow2_monotone_witness : next_pow2 21 <= next_pow2 377.
Proof. apply (next_pow2_monotone 21 377). lia. Defined.

(** X3: for every integer, positive or not, the result of [next_pow2]
    passes [is_pow2]; rounding twice is rounding once; and the integers that
    [next_pow2] leaves alone are exactly those [is_pow2] accepts. *)
Theorem next_pow2_fixed_points n :
  is_pow2 (next_pow2 n) = true
  /\ next_pow2 (next_pow2 n) = next_pow2 n
  /\ (next_pow2 n = n <-> is_pow2 n = true).
Proof.
  assert (Hp : is_pow2 (next_pow2 n) = true)
    by apply is_pow2_power_of_two, next_pow2_power_of_two.
  assert (Hfix : forall m, is_pow2 m = true -> next_pow2 m = m).
  { intros m Hm. apply is_pow2_power_of_two in Hm.
    pose proof (next_pow2_least m m Hm (Z.le_refl m)).
    pose proof (next_pow2_ge m). lia. }
  split; [assumption |]. split; [now apply Hfix |]. split.
  - intros E. now rewrite E in Hp.
  - apply Hfix.
Qed.

(** X4: the loop of [next_pow2] executes its body exactly
    [Z.log2_up n] times (none for [n <= 1]), and the result is 2 to that
    power. *)
Theorem next_pow2_iterations n :
  loop_run n 1 (Z.to_nat (Z.log2_up n)) (next_pow2 n)
  /\ next_pow2 n = 2 ^ Z.log2_up n.
Proof.
  split; [| apply next_pow2_closed_form].
  rewrite next_pow2_closed_form. change 1 with (2 ^ 0) at 1.
  apply loop_run_from_pow2; [lia | apply Z.log2_up_nonneg | f_equal; lia].
Qed.

End ClassifierLaws.

(** ** More about the transformer *)

Module ResizerLaws.
Import Classifier Env Resizer Props Examples.
Import ClassifierFacts EnvFacts ResizerFacts.

#[export] Instance touches_only_preorder imgs backup_dir :
  PreOrder (touches_only imgs backup_dir).
Proof.
  split.
  - intros w q n Hq. rewrite Hq. split; [now exists n |]. split; [congruence | trivial].
  - intros w1 w2 w3 H12 H23 q n Hq.
    destruct (H12 q n Hq) as ([n2 Hq2] & Hdir & Hsame).
    destruct (H23 q n2 Hq2) as (Hsome & Hdir' & Hsame').
    split; [assumption |]. split.
    + intros ->. apply Hdir'. specialize (Hdir eq_refl). congruence.
    + intros Himg Hb. specialize (Hsame Himg Hb).
      assert (n2 = n) as -> by congruence. now apply Hsame'.
Qed.

#[export] Instance confined_preorder imgs backup_dir :
  PreOrder (confined imgs backup_dir).
Proof.
  split.
  - intros w. split; reflexivity.
  - intros w1 w2 w3 [T1 O1] [T2 O2]. split; [now transitivity w2 | congruence].
Qed.

Lemma confined_same_fs imgs backup_dir w w' :
  w_fs w' = w_fs w -> w_out w' = w_out w -> confined imgs backup_dir w w'.
Proof.
  intros Hfs Hout. split; [| assumption]. intros q n Hq. rewrite Hfs, Hq.
  split; [now exists n |]. split; [congruence | trivial].
Qed.

Lemma only_mkdirs_confined d imgs backup_dir w w' :
  only_mkdirs d w w' -> confined imgs backup_dir w w'.
Proof.
  intros (Hout & _ & Hfs). split; [| assumption]. intros q n Hq.
  destruct (Hfs q) as [E | (N & _)]; [| congruence]. rewrite E, Hq.
  split; [now exists n |]. split; [congruence | trivial].
Qed.

(** Writing a regular file at [p], which is no directory, is confined when
    [p] is one of the images or lies below the backup directory. *)
Lemma insert_file_confined imgs backup_dir w w' (p : path) g :
  lookup_node (w_fs w) p <> Some Dir ->
  p ∈ imgs \/ backup_dir `prefix_of` p ->
  w_fs w' = <[p := File g]> (w_fs w) ->
  w_out w' = w_out w ->
  confined imgs backup_dir w w'.
Proof.
  intros Hnd Hp Hfs Hout. split; [| assumption]. intros q n Hq. rewrite Hfs.
  destruct (decide (p = q)) as [<- | Hne].
  - rewrite lookup_insert_eq. split; [now eexists |]. split.
    + intros ->. destruct Hnd. destruct p; [reflexivity | exact Hq].
    + intros Himg Hb. destruct Hp; contradiction.
  - rewrite lookup_insert_ne by assumption. rewrite Hq.
    split; [now exists n |]. split; [congruence | trivial].
Qed.

Lemma Image_open_confined imgs backup_dir p :
  preserves (confined imgs backup_dir) (Image_open p).
Proof. intros w. rewrite Image_open_world. now apply confined_same_fs. Qed.

Lemma makedirs_confined imgs backup_dir p :
  preserves (confined imgs backup_dir) (makedirs p).
Proof.
  intros w. eapply only_mkdirs_confined. apply makedirs_only_mkdirs.
Qed.

Lemma copy2_confined imgs backup_dir src dst :
  backup_dir `prefix_of` dst ->
  preserves (confined imgs backup_dir) (copy2 src dst).
Proof.
  intros Hpre w. unfold copy2. rewrite bind_get_fs. cbv zeta.
  set (dst' := if isdir (w_fs w) dst then dst ++ [basename src] else dst).
  assert (Hpre' : backup_dir `prefix_of` dst').
  { unfold dst'. destruct (isdir (w_fs w) dst); [| assumption].
    now apply prefix_app_r. }
  destruct (bool_decide (src = dst') && path_exists (w_fs w) src); [reflexivity |].
  destruct (lookup_node (w_fs w) src) as [[| f] |]; try reflexivity.
  rewrite bind_run. unfold open_for_write. rewrite bind_get_fs.
  destruct (lookup_node (w_fs w) dst') as [[| g] |] eqn:Hdst; [reflexivity | |].
  - destruct (f_readonly g); [reflexivity |]. simpl.
    eapply insert_file_confined with (p := dst'); eauto; congruence.
  - destruct (lookup_node (w_fs w) (dirname dst')) as [[| g] |]; try reflexivity.
    simpl. eapply insert_file_confined with (p := dst'); eauto; congruence.
Qed.

Lemma Image_save_confined imgs backup_dir im p format :
  p ∈ imgs -> preserves (confined imgs backup_dir) (Image_save im p format).
Proof.
  intros Hp w. rewrite Image_save_run.
  destruct (lookup_node (w_fs w) p) as [[| g] |] eqn:Hl; [reflexivity | |].
  - destruct (f_readonly g); [reflexivity |]. simpl.
    eapply insert_file_confined with (p := p); eauto; congruence.
  - destruct (lookup_node (w_fs w) (dirname p)) as [[| g] |]; try reflexivity.
    simpl. eapply insert_file_confined with (p := p); eauto; congruence.
Qed.

Lemma backup_path_below img_path backup_dir :
  backup_dir `prefix_of` backup_path_of img_path backup_dir.
Proof. unfold backup_path_of, join. now eexists. Qed.

(** Whatever [R] the library calls of [resize_to_pow2] preserve, it
    preserves. *)
Lemma resize_to_pow2_preserves (R : world -> world -> Prop) `{!PreOrder R}
  img_path backup_dir :
  preserves R (Image_open img_path) ->
  preserves R (makedirs (dirname (backup_path_of img_path backup_dir))) ->
  preserves R (copy2 img_path (backup_path_of img_path backup_dir)) ->
  (forall im, preserves R (Image_save im img_path "PNG")) ->
  preserves R (resize_to_pow2 img_path backup_dir).
Proof.
  intros Hopen Hmk Hcopy Hsave. unfold resize_to_pow2.
  preserves_step; [assumption |]. destruct (img_size a) as [wd ht].
  preserves_step; [preserves_step |]. cbv zeta.
  preserves_step; [assumption |]. preserves_step; [assumption |].
  preserves_step.
  { preserves_step; [| preserves_step].
    unfold Image_convert, Image_load.
    preserves_step; [preserves_step; preserves_step | preserves_step]. }
  preserves_step.
  { unfold Image_resize, Image_load.
    preserves_step; [preserves_step; preserves_step | preserves_step]. }
  preserves_step; [apply Hsave | preserves_step].
Qed.

Lemma resize_to_pow2_confined imgs img_path backup_dir :
  img_path ∈ imgs ->
  preserves (confined imgs backup_dir) (resize_to_pow2 img_path backup_dir).
Proof.
  intros Hin. apply resize_to_pow2_preserves; [apply _ | | | |].
  - apply Image_open_confined.
  - apply makedirs_confined.
  - apply copy2_confined, backup_path_below.
  - intros im. now apply Image_save_confined.
Qed.


Lemma pow2_size_stretched im : pow2_size (img_size (stretched im)) = true.
Proof.
  unfold pow2_size, stretched. simpl. apply andb_true_iff.
  split; apply is_pow2_power_of_two, next_pow2_power_of_two.
Qed.

Lemma decodes_or_not fs p :
  (exists f im, decodes fs p f im)
  \/ (forall f im, ¬ decodes fs p f im).
Proof.
  unfold decodes. destruct (lookup_node fs p) as [[| f] |] eqn:Hl.
  - right. intros f im [H _]. discriminate.
  - destruct (f_content f) as [bytes | format im] eqn:Hc.
    + right. intros f' im [H [format Hf]]. congruence.
    + left. exists f, im. split; [reflexivity | now exists format].
  - right. intros f im [H _]. discriminate.
Qed.

Lemma unreadable_run w img_path backup_dir :
  (forall f im, ¬ decodes (w_fs w) img_path f im) ->
  resize_to_pow2 img_path backup_dir w =
    (opened img_path w,
     Raise (match lookup_node (w_fs w) img_path with
            | None => FileNotFoundError img_path
            | Some Dir => IsADirectoryError img_path
            | Some (File _) => UnidentifiedImageError img_path
            end)).
Proof.
  intros Hno. unfold resize_to_pow2, Image_open.
  rewrite bind_run, bind_log, bind_get_fs. cbn [w_fs].
  destruct (lookup_node (w_fs w) img_path) as [[| f] |] eqn:Hl; try reflexivity.
  destruct (f_content f) as [bytes | format im] eqn:Hc; [reflexivity |].
  destruct (Hno f im). split; [assumption | now exists format].
Qed.

(** X5: on a path that is missing, is a directory, or holds bytes that are
    no image, the transformer raises the exception of [Image.open]
    ([FileNotFoundError], [IsADirectoryError], [UnidentifiedImageError]),
    and the attempt to open is all that happened: the file system, the clock
    and the output are unchanged, no directory was made, nothing copied. *)
Theorem unreadable_file_raises w img_path backup_dir :
  (forall f im, ¬ decodes (w_fs w) img_path f im) ->
  exists w',
    resize_to_pow2 img_path backup_dir w =
      (w', Raise (match lookup_node (w_fs w) img_path with
                  | None => FileNotFoundError img_path
                  | Some Dir => IsADirectoryError img_path
                  | Some (File _) => UnidentifiedImageError img_path
                  end))
    /\ w_fs w' = w_fs w /\ w_clock w' = w_clock w /\ w_out w' = w_out w
    /\ w_log w' = w_log w ++ [EvOpen img_path].
Proof.
  intros Hno. exists (opened img_path w).
  split; [now apply unreadable_run | now repeat split].
Qed.

Lemma unreadable_file_raises_witness :
  exists w',
    resize_to_pow2 c_png backup_dir world_mixed =
      (w', Raise (match lookup_node (w_fs world_mixed) c_png with
                  | None => FileNotFoundError c_png
                  | Some Dir => IsADirectoryError c_png
                  | Some (File _) => UnidentifiedImageError c_png
                  end))
    /\ w_fs w' = w_fs world_mixed /\ w_clock w' = w_clock world_mixed
    /\ w_out w' = w_out world_mixed
    /\ w_log w' = w_log world_mixed ++ [EvOpen c_png].
Proof.
  apply (unreadable_file_raises world_mixed c_png backup_dir).
  intros f im [Hl [format Hc]]. vm_compute in Hl. injection Hl as <-.
  discriminate.
Defined.

(** X6: whenever the transformer returns, the file decoded; the first size
    it reports is the size of the decoded image; the flag is true exactly
    when that size is not POW2; the second size is the first one when the
    flag is false and its rounding-up by [next_pow2] when it is true, so in
    both cases a POW2 size; and with the flag false the file system is
    unchanged. *)
Theorem resize_to_pow2_returns w img_path backup_dir w' was_resized orig new :
  resize_to_pow2 img_path backup_dir w = (w', Ok (was_resized, orig, new)) ->
  exists f im,
    decodes (w_fs w) img_path f im
    /\ orig = img_size im
    /\ was_resized = negb (pow2_size orig)
    /\ new = (if was_resized then (next_pow2 orig.1, next_pow2 orig.2) else orig)
    /\ pow2_size new = true
    /\ (was_resized = false -> w_fs w' = w_fs w).
Proof.
  intros Hrun.
  destruct (decodes_or_not (w_fs w) img_path) as [(f & im & Hdec) | Hno].
  2:{ rewrite (unreadable_run w img_path backup_dir Hno) in Hrun. discriminate. }
  exists f, im. split; [assumption |].
  destruct (pow2_size (img_size im)) eqn:Hpow.
  - rewrite (resize_to_pow2_pow2 w _ _ f im Hdec Hpow) in Hrun.
    injection Hrun as <- <- <- <-. rewrite Hpow. now repeat split.
  - rewrite (resize_to_pow2_npot w _ _ f im Hdec Hpow) in Hrun. cbv zeta in Hrun.
    destruct ((makedirs _;; copy2 _ _) _) as [w1 [[] | e]]; [| discriminate].
    destruct (img_truncated im); [discriminate |].
    destruct (Image_save _ _ _ _) as [w2 [[] | e]]; [| discriminate].
    injection Hrun as <- <- <- <-. rewrite Hpow. simpl negb. cbv iota.
    split; [reflexivity |]. split; [reflexivity |]. split; [reflexivity |].
    split; [apply (pow2_size_stretched im) | discriminate].
Qed.

Lemma resize_to_pow2_returns_witness :
  exists f im,
    decodes (w_fs world_mixed) a_png f im
    /\ (377, 21) = img_size im
    /\ true = negb (pow2_size (377, 21))
    /\ (512, 32) = (if true then (next_pow2 (377, 21).1, next_pow2 (377, 21).2)
                    else (377, 21))
    /\ pow2_size (512, 32) = true
    /\ (true = false ->
        w_fs (resize_to_pow2 a_png backup_dir world_mixed).1 = w_fs world_mixed).
Proof.
  apply (resize_to_pow2_returns world_mixed a_png backup_dir
           (resize_to_pow2 a_png backup_dir world_mixed).1 true (377, 21) (512, 32)).
  vm_compute. reflexivity.
Defined.


(** X7: after a run that resized a file, a second run on the same file finds
    it POW2: it answers "unchanged" with the new size twice and changes
    nothing; in particular the backup still holds the original, not the
    resized image. *)
Theorem second_run_is_noop w img_path backup_dir f im wd ht :
  decodes (w_fs w) img_path f im ->
  img_size im = (wd, ht) ->
  is_pow2 wd = false \/ is_pow2 ht = false ->
  img_truncated im = false ->
  f_readonly f = false ->
  backup_possible (w_fs w) img_path backup_dir = true ->
  exists w1 w2,
    resize_to_pow2 img_path backup_dir w =
      (w1, Ok (true, (wd, ht), (next_pow2 wd, next_pow2 ht)))
    /\ resize_to_pow2 img_path backup_dir w1 =
      (w2, Ok (false, (next_pow2 wd, next_pow2 ht), (next_pow2 wd, next_pow2 ht)))
    /\ w_fs w2 = w_fs w1 /\ w_clock w2 = w_clock w1 /\ w_out w2 = w_out w1
    /\ w_log w2 = w_log w1 ++ [EvOpen img_path]
    /\ w_fs w2 !! backup_path_of img_path backup_dir = Some (File f).
Proof.
  intros Hdec Hsize Hnpot Htrunc Hro Hposs.
  assert (Hpow : pow2_size (img_size im) = false).
  { unfold pow2_size. rewrite Hsize. simpl. now apply andb_false_iff. }
  destruct (npot_run w _ _ f im Hdec Hpow Hposs)
    as (wm & ds & _ & _ & _ & Hne & Hm & Hrun).
  cbv zeta in Hrun. rewrite Htrunc, Hro in Hrun.
  set (bp := backup_path_of img_path backup_dir) in *.
  cbn [w_fs w_clock w_log w_out] in Hrun.
  match type of Hrun with _ = (?x, _) => set (w1 := x) in * end.
  assert (Hdec1 : decodes (w_fs w1) img_path
            (File_ (Encoded "PNG" (stretched im)) (w_clock wm + 1) false)
            (stretched im)).
  { split; [| now exists "PNG"]. subst w1. cbn [w_fs w_clock].
    apply lookup_node_insert_file with (g := f).
    now rewrite lookup_node_insert_ne by congruence. }
  exists w1, (opened img_path w1).
  rewrite Hrun, (resize_to_pow2_pow2 w1 _ _ _ _ Hdec1 (pow2_size_stretched im)).
  unfold stretched. rewrite Hsize. cbn [fst snd img_size].
  repeat (split; [reflexivity |]).
  subst w1. cbn [opened w_fs].
  rewrite lookup_insert_ne by congruence. apply lookup_insert_eq.
Qed.

Lemma second_run_is_noop_witness :
  exists w1 w2,
    resize_to_pow2 a_png backup_dir world_mixed =
      (w1, Ok (true, (377, 21), (next_pow2 377, next_pow2 21)))
    /\ resize_to_pow2 a_png backup_dir w1 =
      (w2, Ok (false, (next_pow2 377, next_pow2 21), (next_pow2 377, next_pow2 21)))
    /\ w_fs w2 = w_fs w1 /\ w_clock w2 = w_clock w1 /\ w_out w2 = w_out w1
    /\ w_log w2 = w_log w1 ++ [EvOpen a_png]
    /\ w_fs w2 !! backup_path_of a_png backup_dir = Some (File file_a).
Proof.
  apply (second_run_is_noop world_mixed a_png backup_dir file_a img_a 377 21).
  - split; [reflexivity | now exists "PNG"].
  - reflexivity.
  - left. reflexivity.
  - reflexivity.
  - reflexivity.
  - vm_compute. reflexivity.
Defined.

(** X8: when the backup was written but the pixel data then fails to load,
    or the original is read-only, the run raises ([TruncatedFileError], the
    truncation being found first, or [PermissionError]); the original is
    still in place, nothing was saved, and the copy made before the failure
    stays behind in the backup directory. *)
Theorem failure_after_backup w img_path backup_dir f im :
  decodes (w_fs w) img_path f im ->
  pow2_size (img_size im) = false ->
  backup_possible (w_fs w) img_path backup_dir = true ->
  img_truncated im = true \/ f_readonly f = true ->
  exists w' ds,
    resize_to_pow2 img_path backup_dir w =
      (w', Raise (if img_truncated im then TruncatedFileError
                  else PermissionError img_path))
    /\ lookup_node (w_fs w') img_path = Some (File f)
    /\ w_fs w' !! backup_path_of img_path backup_dir = Some (File f)
    /\ w_log w' = w_log w ++ [EvOpen img_path] ++ map EvMkdir ds
                    ++ [EvCopy img_path (backup_path_of img_path backup_dir)].
Proof.
  intros Hdec Hpow Hposs Hfail.
  destruct (npot_run w _ _ f im Hdec Hpow Hposs)
    as (wm & ds & _ & Hlog & _ & Hne & Hm & Hrun).
  cbv zeta in Hrun. rewrite Hrun. clear Hrun.
  assert (Hafter : forall e,
    exists w' ds0,
      (World (<[backup_path_of img_path backup_dir := File f]> (w_fs wm))
             (w_clock wm + 1)
             (w_log wm ++ [EvCopy img_path (backup_path_of img_path backup_dir)])
             (w_out wm), Raise e) = (w', Raise (A := bool * (Z * Z) * (Z * Z)) e)
      /\ lookup_node (w_fs w') img_path = Some (File f)
      /\ w_fs w' !! backup_path_of img_path backup_dir = Some (File f)
      /\ w_log w' = w_log w ++ [EvOpen img_path] ++ map EvMkdir ds0
                      ++ [EvCopy img_path (backup_path_of img_path backup_dir)]).
  { intros e. eexists _, ds. split; [reflexivity |]. cbn [w_fs w_log].
    split; [now rewrite lookup_node_insert_ne by congruence |].
    split; [apply lookup_insert_eq |]. rewrite Hlog. now rewrite <- !app_assoc. }
  destruct (img_truncated im); [apply Hafter |].
  destruct Hfail as [Hf | Hf]; [discriminate |]. rewrite Hf. apply Hafter.
Qed.


Lemma failure_after_backup_witness :
  exists w' ds,
    resize_to_pow2 a_png backup_dir world_readonly =
      (w', Raise (if img_truncated img_a then TruncatedFileError
                  else PermissionError a_png))
    /\ lookup_node (w_fs w') a_png = Some (File file_a_readonly)
    /\ w_fs w' !! backup_path_of a_png backup_dir = Some (File file_a_readonly)
    /\ w_log w' = w_log world_readonly ++ [EvOpen a_png] ++ map EvMkdir ds
                    ++ [EvCopy a_png (backup_path_of a_png backup_dir)].
Proof.
  apply (failure_after_backup world_readonly a_png backup_dir file_a_readonly img_a).
  - split; [reflexivity | now exists "PNG"].
  - reflexivity.
  - vm_compute. reflexivity.
  - right. reflexivity.
Defined.



End ResizerLaws.

(** ** More about the batch driver *)

Module DriverLaws.
Import Classifier Env Resizer Props Examples.
Import ClassifierFacts EnvFacts ResizerFacts DriverFacts ResizerLaws.

Lemma touches_only_mono imgs imgs' backup_dir w w' :
  imgs ⊆ imgs' ->
  touches_only imgs backup_dir w w' -> touches_only imgs' backup_dir w w'.
Proof.
  intros Hsub H q n Hq. destruct (H q n Hq) as (Hsome & Hdir & Hsame).
  repeat (split; [assumption |]). intros Hnot. apply Hsame. intros Hin.
  apply Hnot, Hsub, Hin.
Qed.

Lemma touches_only_same_fs imgs backup_dir w w' w'' :
  w_fs w'' = w_fs w' ->
  touches_only imgs backup_dir w w' -> touches_only imgs backup_dir w w''.
Proof. intros E H q n Hq. rewrite E. now apply H. Qed.

Lemma prefix_append s t : String.prefix s (s +:+ t) = true.
Proof.
  induction s as [| a s IH]; [now destruct t |]. simpl.
  destruct (Ascii.ascii_dec a a); [exact IH | contradiction].
Qed.

Lemma report_line_resized t : report_line ("[RESIZED] " +:+ t) = true.
Proof. unfold report_line. now rewrite (prefix_append "[RESIZED] "). Qed.

Lemma report_line_error t : report_line ("[ERROR]   " +:+ t) = true.
Proof. unfold report_line. rewrite (prefix_append "[ERROR]   "). apply orb_true_r. Qed.

(** One turn of the loop: it ends normally; it prints one line, for a
    resized file or for an error, or none, for a skipped file; it records at
    most one error, under the path of the file; it touches the file system
    as [resize_to_pow2] does. *)
Lemma process_file_report assets_dir backup_dir p s w :
  exists w' s' lines errs,
    process_file assets_dir backup_dir p s w = (w', Ok s')
    /\ w_out w' = w_out w ++ lines
    /\ Forall (fun line => report_line line = true) lines
    /\ Z.of_nat (length lines) + (skipped_count s' - skipped_count s) = 1
    /\ errors s' = errors s ++ errs
    /\ map fst errs `sublist_of` [p]
    /\ touches_only [p] backup_dir w w'.
Proof.
  rewrite process_file_run. unfold try_body. rewrite bind_run.
  destruct (resize_to_pow2_confined [p] p backup_dir (list_elem_of_here _ _) w)
    as [Htouch Hout].
  destruct (resize_to_pow2 p backup_dir w) as [w1 [[[was_resized o] n] | e]];
    cbn [fst] in Htouch, Hout.
  - rewrite bind_run. pose proof (relative_to_pure p assets_dir w1) as Hpure.
    destruct (relative_to p assets_dir w1) as [w2 [rel | e]];
      cbn [fst] in Hpure; subst w2.
    + destruct was_resized.
      * rewrite bind_print, ret_run. eexists _, _, [_], [].
        split; [reflexivity |]. cbn [w_out w_fs skipped_count errors length map].
        rewrite Hout, app_nil_r.
        split; [reflexivity |].
        split; [constructor; [apply report_line_resized || apply report_line_error | constructor] |].
        split; [lia |]. split; [reflexivity |].
        split; [apply sublist_nil_l |].
        eapply touches_only_same_fs; [| exact Htouch]. reflexivity.
      * rewrite ret_run. eexists _, _, [], [].
        split; [reflexivity |]. cbn [w_out w_fs skipped_count errors length map].
        rewrite !app_nil_r.
        split; [assumption |]. split; [constructor |].
        split; [lia |]. split; [reflexivity |].
        split; [apply sublist_nil_l | exact Htouch].
    + eexists _, _, [_], [_].
      split; [reflexivity |]. cbn [reported w_out w_fs skipped_count errors length map fst].
      rewrite Hout.
      split; [reflexivity |].
        split; [constructor; [apply report_line_resized || apply report_line_error | constructor] |].
      split; [lia |]. split; [reflexivity |].
      split; [reflexivity |].
      eapply touches_only_same_fs; [| exact Htouch]. reflexivity.
  - eexists _, _, [_], [_].
    split; [reflexivity |]. cbn [reported w_out w_fs skipped_count errors length map fst].
    rewrite Hout.
    split; [reflexivity |].
        split; [constructor; [apply report_line_resized || apply report_line_error | constructor] |].
    split; [lia |]. split; [reflexivity |].
    split; [reflexivity |].
    eapply touches_only_same_fs; [| exact Htouch]. reflexivity.
Qed.

(** The whole loop, by what it prints, records and touches. *)
Lemma main_loop_report assets_dir backup_dir files : forall s w,
  exists w' s' lines errs,
    main_loop assets_dir backup_dir files s w = (w', Ok s')
    /\ w_out w' = w_out w ++ lines
    /\ Forall (fun line => report_line line = true) lines
    /\ Z.of_nat (length lines) + (skipped_count s' - skipped_count s)
       = Z.of_nat (length files)
    /\ errors s' = errors s ++ errs
    /\ map fst errs `sublist_of` files
    /\ touches_only files backup_dir w w'.
Proof.
  induction files as [| p files IH]; intros s w.
  - exists w, s, [], []. rewrite !app_nil_r. simpl.
    repeat (split; [reflexivity || constructor || lia |]). reflexivity.
  - cbn [main_loop]. rewrite bind_run.
    destruct (process_file_report assets_dir backup_dir p s w)
      as (w1 & s1 & l1 & e1 & -> & Hout1 & Hl1 & Hn1 & Herr1 & Hsub1 & Ht1).
    destruct (IH s1 w1)
      as (w' & s' & l2 & e2 & Hrun & Hout2 & Hl2 & Hn2 & Herr2 & Hsub2 & Ht2).
    exists w', s', (l1 ++ l2), (e1 ++ e2). split; [assumption |].
    split; [rewrite Hout2, Hout1; now rewrite <- app_assoc |].
    split; [now apply Forall_app |].
    split; [rewrite length_app; cbn [length]; lia |].
    split; [rewrite Herr2, Herr1; now rewrite <- app_assoc |].
    split; [rewrite map_app; change (p :: files) with ([p] ++ files);
            now apply sublist_app |].
    transitivity w1.
    + eapply touches_only_mono; [| exact Ht1]. intros x Hx.
      apply list_elem_of_singleton in Hx as ->. apply list_elem_of_here.
    + eapply touches_only_mono; [| exact Ht2]. intros x Hx.
      now apply list_elem_of_further.
Qed.


(** X10: for every file of the batch the loop prints one line, a
    [[RESIZED]] or an [[ERROR]] line, except for the files it counts as
    skipped, for which it prints nothing; it prints nothing else. *)
Theorem loop_reports_resized_and_errors assets_dir backup_dir files s w :
  exists w' s' lines,
    main_loop assets_dir backup_dir files s w = (w', Ok s')
    /\ w_out w' = w_out w ++ lines
    /\ Forall (fun line => report_line line = true) lines
    /\ Z.of_nat (length lines)
       = Z.of_nat (length files) - (skipped_count s' - skipped_count s).
Proof.
  destruct (main_loop_report assets_dir backup_dir files s w)
    as (w' & s' & lines & errs & Hrun & Hout & Hlines & Hn & _).
  exists w', s', lines. repeat (split; [assumption |]). lia.
Qed.

(** X11: the errors are recorded after those already there, in the order
    the files are processed and at most one per file: the paths of the new
    records are a subsequence of the batch. *)
Theorem errors_in_processing_order assets_dir backup_dir files s w :
  exists w' s' errs,
    main_loop assets_dir backup_dir files s w = (w', Ok s')
    /\ errors s' = errors s ++ errs
    /\ map fst errs `sublist_of` files.
Proof.
  destruct (main_loop_report assets_dir backup_dir files s w)
    as (w' & s' & lines & errs & Hrun & _ & _ & _ & Herrs & Hsub & _).
  now exists w', s', errs.
Qed.

(** X12: when a regular file sits where the backup directory should be,
    [main] stops on the [FileExistsError] of its [mkdir], which nothing
    catches: nothing was printed, not even the banner, no file was opened
    and the world is exactly as before. *)
Theorem backup_path_is_a_file script w g :
  path_exists (w_fs w) (script ++ ["assets"]) = true ->
  w_fs w !! (script ++ ["backup_npot"]) = Some (File g) ->
  main script w = (w, Uncaught (FileExistsError (script ++ ["backup_npot"]))).
Proof.
  intros Hassets Hfile. unfold main. rewrite Hassets. cbn [negb].
  unfold main_body. rewrite bind_run.
  unfold Path_mkdir_exist_ok, os_mkdir.
  rewrite try_except_run, bind_get_fs, lookup_node_snoc, Hfile.
  cbn [raise]. rewrite bind_get_fs. unfold isdir.
  now rewrite lookup_node_snoc, Hfile.
Qed.

Lemma backup_path_is_a_file_witness :
  main script_dir world_backup_is_file
  = (world_backup_is_file, Uncaught (FileExistsError (script_dir ++ ["backup_npot"]))).
Proof.
  apply (backup_path_is_a_file script_dir world_backup_is_file file_c);
    reflexivity.
Defined.


Lemma Path_mkdir_only_mkdirs p :
  preserves (only_mkdirs p) (Path_mkdir_exist_ok p).
Proof.
  unfold Path_mkdir_exist_ok. preserves_step; [apply os_mkdir_only_mkdirs |].
  destruct e; repeat preserves_step.
Qed.

Lemma Path_mkdir_existing p w :
  isdir (w_fs w) p = true -> Path_mkdir_exist_ok p w = (w, Ok tt).
Proof.
  intros Hdir. unfold Path_mkdir_exist_ok, os_mkdir.
  rewrite try_except_run, bind_get_fs.
  pose proof Hdir as Hl. apply isdir_lookup in Hl. rewrite Hl.
  cbn [raise]. rewrite bind_get_fs. now rewrite Hdir.
Qed.

Lemma filter_Permutation_bool {A : Type} (f : A -> bool) (l l' : list A) :
  l ≡ₚ l' -> List.filter f l ≡ₚ List.filter f l'.
Proof.
  induction 1 as [| x l l' _ IH | x y l | l1 l2 l3 _ IH1 _ IH2]; simpl.
  - reflexivity.
  - destruct (f x); [now constructor | assumption].
  - destruct (f x), (f y); try reflexivity. apply perm_swap.
  - now transitivity (List.filter f l2).
Qed.

(** Putting the backup directory in place does not change which PNG files
    are found below the assets directory. *)
Lemma rglob_png_with_backup_dir fs script :
  fs !! (script ++ ["backup_npot"]) = None
  \/ fs !! (script ++ ["backup_npot"]) = Some Dir ->
  rglob_png (<[script ++ ["backup_npot"] := Dir]> fs) (script ++ ["assets"])
  ≡ₚ rglob_png fs (script ++ ["assets"]).
Proof.
  intros [Hnone | Hdir]; [| now rewrite insert_id].
  unfold rglob_png.
  rewrite (filter_Permutation_bool _ _ _
             (fmap_Permutation fst _ _ (map_to_list_insert fs _ Dir Hnone))).
  cbn [fmap list_fmap fst List.filter].
  rewrite (bool_decide_eq_false_2 (_ `prefix_of` _)); [reflexivity |].
  now apply sibling_not_prefix.
Qed.

(** [main] once its [mkdir] has returned: banner, loop, summary. *)
Lemma main_body_run assets_dir backup_dir w w1 :
  Path_mkdir_exist_ok backup_dir w = (w1, Ok tt) ->
  exists header summary_lines w2 s,
    main_loop assets_dir backup_dir (rglob_png (w_fs w1) assets_dir)
      (Summary 0 0 [])
      (World (w_fs w1) (w_clock w1) (w_log w1) (w_out w1 ++ header)) = (w2, Ok s)
    /\ main_body assets_dir backup_dir w =
       (World (w_fs w2) (w_clock w2) (w_log w2) (w_out w2 ++ summary_lines), Ok s).
Proof.
  intros Hmk. unfold main_body. rewrite bind_run, Hmk.
  rewrite !bind_print, bind_get_fs, !bind_print. cbn [w_fs w_clock w_log w_out].
  rewrite <- !app_assoc.
  match goal with |- context [(main_loop _ _ ?fl ?s0 ≫= _) ?w0] =>
    destruct (main_loop_total assets_dir backup_dir fl s0 w0)
      as (w2 & s & _ & _ & Hrun & _) end.
  rewrite bind_run, Hrun, bind_run.
  destruct (print_summary_run backup_dir s w2) as [lines ->]. rewrite ret_run.
  eexists _, lines, w2, s. split; [exact Hrun | reflexivity].
Qed.


(** X13: when the assets directory exists and the backup directory is there
    already, or can be made below the script directory, [main] runs to its
    end whatever the files hold; every PNG entry found below the assets
    directory in the file system [main] started from is opened exactly once;
    and the three counts of the summary add up to the number of those
    entries. *)
Theorem main_accounts_for_every_file script w :
  path_exists (w_fs w) (script ++ ["assets"]) = true ->
  isdir (w_fs w) (script ++ ["backup_npot"]) = true
  \/ (w_fs w !! (script ++ ["backup_npot"]) = None /\ isdir (w_fs w) script = true) ->
  exists w' s evs,
    main script w = (w', Done s)
    /\ w_log w' = w_log w ++ evs
    /\ opens evs ≡ₚ rglob_png (w_fs w) (script ++ ["assets"])
    /\ resized_count s + skipped_count s + Z.of_nat (length (errors s))
       = Z.of_nat (length (rglob_png (w_fs w) (script ++ ["assets"]))).
Proof.
  intros Hassets Hbackup.
  set (a := script ++ ["assets"]) in *. set (b := script ++ ["backup_npot"]) in *.
  assert (Hmk : exists w1 mk,
    Path_mkdir_exist_ok b w = (w1, Ok tt)
    /\ w_log w1 = w_log w ++ map EvMkdir mk
    /\ rglob_png (w_fs w1) a ≡ₚ rglob_png (w_fs w) a).
  { destruct Hbackup as [Hdir | [Hnone Hscript]].
    - exists w, []. rewrite (Path_mkdir_existing b w Hdir), app_nil_r.
      repeat split; reflexivity.
    - exists (World (<[b := Dir]> (w_fs w)) (w_clock w + 1)
                    (w_log w ++ [EvMkdir b]) (w_out w)), [b].
      rewrite Path_mkdir_fresh;
        [| assumption | unfold b; now rewrite dirname_snoc
         | unfold b; now destruct script].
      split; [reflexivity |]. split; [reflexivity |]. cbn [w_fs].
      apply rglob_png_with_backup_dir. now left. }
  destruct Hmk as (w1 & mk & Hmk & Hlog1 & Hperm).
  destruct (main_body_run a b w w1 Hmk) as (header & lines & w2 & s & Hloop & Hbody).
  match type of Hloop with main_loop _ _ ?fl ?s0 ?w0 = _ =>
    destruct (main_loop_total a b fl s0 w0)
      as (w2' & s' & evs & errs & Hrun & Hlog & Hop & Herrs & Hn & _) end.
  rewrite Hloop in Hrun. injection Hrun as <- <-.
  cbn [w_log errors resized_count skipped_count] in *.
  unfold main. fold a b. rewrite Hassets. cbn [negb]. rewrite Hbody.
  eexists _, s, (map EvMkdir mk ++ evs). split; [reflexivity |]. cbn [w_log].
  split; [rewrite Hlog, Hlog1; now rewrite <- app_assoc |].
  split; [rewrite opens_app, opens_mkdirs, Hop; exact Hperm |].
  rewrite <- (Permutation_length Hperm). rewrite Herrs. cbn [app]. lia.
Qed.

Lemma main_accounts_for_every_file_witness :
  exists w' s evs,
    main script_dir world_backup_exists = (w', Done s)
    /\ w_log w' = w_log world_backup_exists ++ evs
    /\ opens evs ≡ₚ rglob_png (w_fs world_backup_exists) (script_dir ++ ["assets"])
    /\ resized_count s + skipped_count s + Z.of_nat (length (errors s))
       = Z.of_nat (length (rglob_png (w_fs world_backup_exists)
                                     (script_dir ++ ["assets"]))).
Proof.
  apply (main_accounts_for_every_file script_dir world_backup_exists).
  - reflexivity.
  - left. reflexivity.
Defined.

(** X14: however a run of [main] ends, it removes nothing, never replaces a
    directory, and leaves exactly as it was every entry that is neither
    below the backup directory nor a [*.png] entry below the assets
    directory. *)
Theorem main_frame script w q n :
  w_fs w !! q = Some n ->
  is_Some (w_fs (main script w).1 !! q)
  /\ (n = Dir -> w_fs (main script w).1 !! q = Some Dir)
  /\ (¬ (script ++ ["backup_npot"]) `prefix_of` q ->
      ¬ (script ++ ["assets"]) `prefix_of` q \/ is_png_name (basename q) = false ->
      w_fs (main script w).1 !! q = Some n).
Proof.
  intros Hq.
  assert (Hsame : forall w', w_fs w' = w_fs w ->
    is_Some (w_fs w' !! q) /\ (n = Dir -> w_fs w' !! q = Some Dir)
    /\ (¬ (script ++ ["backup_npot"]) `prefix_of` q ->
        ¬ (script ++ ["assets"]) `prefix_of` q \/ is_png_name (basename q) = false ->
        w_fs w' !! q = Some n)).
  { intros w' ->. rewrite Hq. split; [now exists n |]. split; [congruence | trivial]. }
  unfold main.
  set (a := script ++ ["assets"]) in *. set (b := script ++ ["backup_npot"]) in *.
  destruct (path_exists (w_fs w) a); cbn [negb]; [| now apply Hsame].
  pose proof (Path_mkdir_only_mkdirs b w) as Hmk.
  destruct (Path_mkdir_exist_ok b w) as [w1 [[] | e]] eqn:Hrun; cbn [fst] in Hmk.
  - destruct (main_body_run a b w w1 Hrun) as (header & lines & w2 & s & Hloop & ->).
    cbn [fst w_fs].
    match type of Hloop with main_loop _ _ ?fl ?s0 ?w0 = _ =>
      destruct (main_loop_report a b fl s0 w0)
        as (w2' & s' & _ & _ & Hrun' & _ & _ & _ & _ & _ & Htouch) end.
    rewrite Hloop in Hrun'. injection Hrun' as <- <-.
    assert (Hq1 : w_fs w1 !! q = Some n).
    { destruct Hmk as (_ & _ & Hfs). destruct (Hfs q) as [E | (N & _)]; congruence. }
    destruct (Htouch q n Hq1) as (Hsome & Hdir & Hkeep).
    repeat (split; [assumption |]). intros Hb Ha. apply Hkeep; [| assumption].
    intros Hin. apply list_elem_of_In, rglob_png_In in Hin as (_ & Hpre & _ & Hpng).
    destruct Ha as [Ha | Ha]; [contradiction | congruence].
  - unfold main_body. rewrite bind_run, Hrun. cbn [fst].
    destruct Hmk as (_ & _ & Hfs). destruct (Hfs q) as [E | (N & _)]; [| congruence].
    rewrite E, Hq. split; [now exists n |]. split; [congruence | trivial].
Qed.

Lemma main_frame_witness :
  is_Some (w_fs (main script_dir world_mixed).1 !! (assets_dir ++ ["ui"]))
  /\ (Dir = Dir -> w_fs (main script_dir world_mixed).1 !! (assets_dir ++ ["ui"])
                   = Some Dir)
  /\ (¬ (script_dir ++ ["backup_npot"]) `prefix_of` (assets_dir ++ ["ui"]) ->
      ¬ (script_dir ++ ["assets"]) `prefix_of` (assets_dir ++ ["ui"])
      \/ is_png_name (basename (assets_dir ++ ["ui"])) = false ->
      w_fs (main script_dir world_mixed).1 !! (assets_dir ++ ["ui"]) = Some Dir).
Proof.
  apply (main_frame script_dir world_mixed (assets_dir ++ ["ui"]) Dir).
  reflexivity.
Defined.


(** The counters never go down. *)
Lemma process_file_counts_grow assets_dir backup_dir p s w w' s' :
  process_file assets_dir backup_dir p s w = (w', Ok s') ->
  resized_count s <= resized_count s' /\ skipped_count s <= skipped_count s'.
Proof.
  rewrite process_file_run. unfold try_body. rewrite bind_run.
  destruct (resize_to_pow2 p backup_dir w) as [w1 [[[was_resized o] n] | e]].
  - rewrite bind_run.
    destruct (relative_to p assets_dir w1) as [w2 [rel | e]].
    + destruct was_resized; [rewrite bind_print |]; rewrite ret_run;
        intros [= <- <-]; simpl; lia.
    + intros [= <- <-]. simpl. lia.
  - intros [= <- <-]. simpl. lia.
Qed.

Lemma main_loop_counts_grow assets_dir backup_dir files : forall s w w' s',
  main_loop assets_dir backup_dir files s w = (w', Ok s') ->
  resized_count s <= resized_count s' /\ skipped_count s <= skipped_count s'.
Proof.
  induction files as [| p files IH]; intros s w w' s'.
  - intros [= <- <-]. lia.
  - cbn [main_loop]. rewrite bind_run.
    pose proof (process_file_counts_grow assets_dir backup_dir p s w) as Hp.
    destruct (process_file assets_dir backup_dir p s w) as [w1 [s1 | e]];
      [| discriminate].
    intros Hrest. specialize (Hp _ _ eq_refl). apply IH in Hrest. lia.
Qed.

Lemma print_summary_last_line backup_dir s w :
  last (w_out (print_summary backup_dir s w).1)
  = Some (if 0 <? resized_count s then "  /addon reload xivparty"
          else "No files needed resizing.").
Proof.
  unfold print_summary. rewrite !bind_print.
  destruct (0 <? resized_count s).
  - rewrite !bind_print. unfold print. cbn [fst w_out]. apply last_snoc.
  - unfold print. cbn [fst w_out]. apply last_snoc.
Qed.

(** X15: when [main] runs to its end, the last line it prints is "No files
    needed resizing." if the count of resized files is zero, and the
    instruction to reload the addon otherwise; that count is never
    negative. *)
Theorem main_last_line script w w' s :
  main script w = (w', Done s) ->
  0 <= resized_count s
  /\ last (w_out w')
     = Some (if resized_count s =? 0 then "No files needed resizing."
             else "  /addon reload xivparty").
Proof.
  unfold main. destruct (path_exists (w_fs w) (script ++ ["assets"])); cbn [negb];
    [| discriminate].
  unfold main_body. rewrite bind_run.
  destruct (Path_mkdir_exist_ok _ w) as [w1 [[] | e]]; [| discriminate].
  rewrite !bind_print, bind_get_fs, !bind_print, bind_run.
  match goal with |- context [main_loop ?a ?b ?fl ?s0 ?w0] =>
    pose proof (main_loop_counts_grow a b fl s0 w0) as Hgrow;
    destruct (main_loop a b fl s0 w0) as [w2 [s2 | e]]; [| discriminate] end.
  destruct (Hgrow _ _ eq_refl) as [Hr _]. cbn [resized_count] in Hr.
  rewrite bind_run.
  pose proof (print_summary_last_line (script ++ ["backup_npot"]) s2 w2) as Hlast.
  destruct (print_summary _ s2 w2) as [w3 [[] | e]]; [| discriminate].
  rewrite ret_run. intros [= <- <-]. split; [assumption |].
  cbn [fst] in Hlast. rewrite Hlast.
  destruct (Z.ltb_spec 0 (resized_count s2)), (Z.eqb_spec (resized_count s2) 0);
    try reflexivity; lia.
Qed.

Lemma main_last_line_witness :
  0 <= resized_count (Summary 1 1 [(c_png, str (UnidentifiedImageError c_png))])
  /\ last (w_out (main script_dir world_mixed).1)
     = Some (if resized_count
                  (Summary 1 1 [(c_png, str (UnidentifiedImageError c_png))]) =? 0
             then "No files needed resizing."
             else "  /addon reload xivparty").
Proof.
  apply (main_last_line script_dir world_mixed).
  vm_compute. reflexivity.
Defined.

End DriverLaws.
